(** * The Cuentica SDK request pipeline

    A shallow embedding of [src/index.ts] (class [CuenticaAPI]) and of the
    error class of [src/types/index.ts], with the platform objects the code
    calls ([URL], [URLSearchParams], [Headers], [Response], [Date],
    [Number], [JSON.stringify]) modelled after their standards.

    Conventions.
    - A JavaScript string is a [string]; a header value is a byte string,
      a query value is taken as its UTF-8 bytes.
    - A number is a binary64 value, carried as the rational it denotes
      where the code computes with it; a number that the code only prints
      is a whole number ([Z], printed in decimal when [safe_integer]) or
      is carried by the text the engine prints for it.
    - [undefined] in an optional position is [None].
    - A promise that has settled is an [outcome]; an [async] function is a
      computation in [Run], which also records the calls made to the
      network transport and to the body readers of the response.
    - The transport, the global [fetch], is a parameter of the methods,
      and [process.env.CUENTICA_TOKEN] one of the constructor.
    - [new URL] and [new Headers] are modelled on the clients and paths
      on which they neither fail nor rewrite their arguments ([usable],
      [path_absolute], [plain_path]); a statement on the text of a URL or
      of a header, or on a call being made, assumes them. *)

From Stdlib Require Import String Ascii List Bool ZArith NArith QArith Qabs Lia.
From Stdlib Require Import Decimal DecimalString DecimalPos DecimalZ.
Import ListNotations.

Local Open Scope string_scope.
Local Open Scope Z_scope.

(** ** Text helpers *)

Definition code (c : ascii) : N := N_of_ascii c.

Definition in_range (lo hi : N) (c : ascii) : bool :=
  (N.leb lo (code c)) && (N.leb (code c) hi).

Definition is_digit (c : ascii) : bool := in_range 48 57 c.
Definition is_upper (c : ascii) : bool := in_range 65 90 c.
Definition is_lower (c : ascii) : bool := in_range 97 122 c.
Definition is_alnum (c : ascii) : bool := is_digit c || is_upper c || is_lower c.

(** ASCII lower-casing, as used to compare header names. *)
Definition lower (c : ascii) : ascii :=
  if is_upper c then ascii_of_N (code c + 32) else c.

Fixpoint lowercase (s : string) : string :=
  match s with
  | EmptyString => EmptyString
  | String c r => String (lower c) (lowercase r)
  end.

(** [Array.prototype.join] on an array of strings. *)
Definition join (sep : string) (l : list string) : string := String.concat sep l.

(** Decimal text of an integer.  It is what a template literal or
    [toString] gives for a number that is a whole number below 2^53 in
    magnitude ([safe_integer]); beyond, not every whole number is a
    binary64 value, and from 10^21 on the engine prints an exponent. *)
Definition Z_toString (n : Z) : string := NilZero.string_of_int (Z.to_int n).
Definition N_toString (n : N) : string := Z_toString (Z.of_N n).

(** ** Numbers, as far as the pipeline computes with them

    A number is a binary64 value.  A finite one is carried as the
    rational it denotes; the two zeros are not told apart.  Every
    operation rounds its exact result with [binary64]. *)

Inductive number : Type :=
| NaN
| Infinity (negative : bool)
| Finite (q : Q).

Definition Q_negative (q : Q) : bool := Z.ltb (Qnum q) 0.
Definition Q_zero (q : Q) : bool := Z.eqb (Qnum q) 0.

(** The fraction [n / d], with [0 <= n] and [0 < d], rounded to the
    nearest integer, to the even one on a tie. *)
Definition round_half_even (n d : Z) : Z :=
  let q := n / d in
  match Z.compare (2 * (n mod d)) d with
  | Lt => q
  | Eq => if Z.even q then q else q + 1
  | Gt => q + 1
  end.

(** [2^k <= n / d]. *)
Definition at_least_pow2 (n d k : Z) : bool :=
  if Z.leb 0 k then Z.leb (d * 2 ^ k) n else Z.leb d (n * 2 ^ (- k)).

(** [m * 2^e] as a rational. *)
Definition scale2 (m e : Z) : Q :=
  if Z.leb 0 e then inject_Z (m * 2 ^ e)
  else Qmake m (Z.to_pos (2 ^ (- e))).

(** The binary64 value nearest to a rational, ties to even (IEEE 754
    roundTiesToEven): 53 bits of significand [m] at the exponent [e] of
    the last bit, which is no less than -1074; a magnitude that rounds
    to 2^1024 or more is infinite.  The result is a reduced fraction. *)
Definition binary64 (x : Q) : number :=
  let n := Z.abs (Qnum x) in
  let d := Zpos (Qden x) in
  if Z.eqb n 0 then Finite 0
  else
    let l := Z.log2 n - Z.log2 d in
    let k := if at_least_pow2 n d l then l else l - 1 in
    let e := Z.max (k - 52) (-1074) in
    let m := if Z.leb 0 e then round_half_even n (d * 2 ^ e)
             else round_half_even (n * 2 ^ (- e)) d in
    if Z.leb 1024 (Z.log2 m + e) then Infinity (Q_negative x)
    else Finite (Qred (scale2 (Z.sgn (Qnum x) * m) e)).

(** The [*] operator of the language on numbers. *)
Definition number_mul (a b : number) : number :=
  match a, b with
  | NaN, _ | _, NaN => NaN
  | Infinity s, Infinity t => Infinity (xorb s t)
  | Infinity s, Finite q | Finite q, Infinity s =>
      if Q_zero q then NaN else Infinity (xorb s (Q_negative q))
  | Finite p, Finite q => binary64 (Qmult p q)
  end.

(** *** [Number(string)]: StringToNumber of ECMA-262 *)

(** White space and line terminators among the code units below 256. *)
Definition is_space (c : ascii) : bool :=
  in_range 9 13 c || N.eqb (code c) 32 || N.eqb (code c) 160.

Fixpoint trim_start (s : string) : string :=
  match s with
  | String c r => if is_space c then trim_start r else s
  | EmptyString => EmptyString
  end.

Fixpoint rev_string (s acc : string) : string :=
  match s with
  | EmptyString => acc
  | String c r => rev_string r (String c acc)
  end.

Definition trim (s : string) : string :=
  rev_string (trim_start (rev_string (trim_start s) "")) "".

(** Value of a digit in a base up to 16, if the character is one. *)
Definition digit_in (base : N) (c : ascii) : option Z :=
  let v := if is_digit c then Some (code c - 48)%N
           else if in_range 97 102 c then Some (code c - 87)%N
           else if in_range 65 70 c then Some (code c - 55)%N
           else None in
  match v with
  | Some d => if N.ltb d base then Some (Z.of_N d) else None
  | None => None
  end.

(** The longest prefix of digits of the base: its value, its length,
    and what follows it. *)
Fixpoint digits (base : N) (s : string) (acc : Z) (len : Z) : Z * Z * string :=
  match s with
  | String c r =>
      match digit_in base c with
      | Some d => digits base r (Z.of_N base * acc + d) (len + 1)
      | None => (acc, len, s)
      end
  | EmptyString => (acc, len, s)
  end.

(** [m * 10^e] as a rational. *)
Definition scale10 (m e : Z) : Q :=
  if Z.leb 0 e then inject_Z (m * 10 ^ e)
  else Qmake m (Z.to_pos (10 ^ (- e))).

(** An optional exponent part; [None] when an [e] is not followed by
    digits. *)
Definition exponent_part (s : string) : option Z :=
  match s with
  | EmptyString => Some 0
  | String c r =>
      if orb (Ascii.eqb c "e") (Ascii.eqb c "E") then
        let '(neg, r') :=
          match r with
          | String "-" t => (true, t)
          | String "+" t => (false, t)
          | _ => (false, r)
          end in
        match digits 10 r' 0 0 with
        | (v, len, EmptyString) =>
            if Z.ltb 0 len then Some (if neg then - v else v) else None
        | _ => None
        end
      else None
  end.

(** The exact value of an unsigned StrUnsignedDecimalLiteral other than
    [Infinity]. *)
Definition unsigned_decimal (s : string) : option Q :=
  let '(ip, ilen, r) := digits 10 s 0 0 in
  let '(m, flen, r') :=
    match r with
    | String "." t => let '(m, l, t') := digits 10 t ip 0 in (m, l, t')
    | _ => (ip, 0, r)
    end in
  if Z.ltb 0 (ilen + flen) then
    match exponent_part r' with
    | Some e => Some (scale10 m (e - flen))
    | None => None
    end
  else None.

Definition radix_literal (base : N) (s : string) : number :=
  match digits base s 0 0 with
  | (v, len, EmptyString) =>
      if Z.ltb 0 len then binary64 (inject_Z v) else NaN
  | _ => NaN
  end.

Definition negate (n : number) : number :=
  match n with
  | NaN => NaN
  | Infinity s => Infinity (negb s)
  | Finite q => Finite (Qopp q)
  end.

Definition signed_decimal (s : string) : number :=
  let '(neg, r) :=
    match s with
    | String "-" t => (true, t)
    | String "+" t => (false, t)
    | _ => (false, s)
    end in
  let n := if String.eqb r "Infinity" then Infinity false
           else match unsigned_decimal r with
                | Some q => binary64 q
                | None => NaN
                end in
  if neg then negate n else n.

Definition StringToNumber (s : string) : number :=
  match trim s with
  | EmptyString => Finite 0
  | String "0" (String "x" r) | String "0" (String "X" r) => radix_literal 16 r
  | String "0" (String "o" r) | String "0" (String "O" r) => radix_literal 8 r
  | String "0" (String "b" r) | String "0" (String "B" r) => radix_literal 2 r
  | t => signed_decimal t
  end.

(** [Number(v)] for [v] a string or [null]: [Number(null)] is [0]. *)
Definition Number (v : option string) : number :=
  match v with
  | None => Finite 0
  | Some s => StringToNumber s
  end.

(** ** Dates *)

(** A [Date] object: its time value in milliseconds since the epoch, or
    the invalid date (time value [NaN]). *)
Inductive Date : Type :=
| ValidDate (time : Z)
| InvalidDate.

Definition max_time : Z := 8640000000000000.

(** Truncation toward zero. *)
Definition truncate (q : Q) : Z := Z.quot (Qnum q) (Zpos (Qden q)).

(** [new Date(value)] for a number: TimeClip. *)
Definition Date_new (value : number) : Date :=
  match value with
  | Finite q =>
      if Qle_bool (Qabs q) (inject_Z max_time) then ValidDate (truncate q)
      else InvalidDate
  | _ => InvalidDate
  end.

(** ** Values and exceptions *)

(** The values a request body or a decoded response is made of:
    [undefined] and the values of JSON.  A whole number is a [JNum]; any
    other finite number (one with a fraction, or too large to be printed
    digit by digit) is a [JNumber], carried by the text that the engine
    prints for it.  An object is the list of its properties in property
    order. *)
#[warnings="-register-all"]
Inductive JsValue : Type :=
| JUndefined
| JNull
| JBool (b : bool)
| JNum (n : Z)
| JNumber (printed : string)
| JStr (s : string)
| JArr (items : list JsValue)
| JObj (props : list (string * JsValue)).

(** ToBoolean, which decides [body ? ... : ...]. *)
Definition truthy (v : JsValue) : bool :=
  match v with
  | JUndefined | JNull => false
  | JBool b => b
  | JNum n => negb (Z.eqb n 0)
  | JNumber _ => true
  | JStr s => negb (String.eqb s "")
  | JArr _ | JObj _ => true
  end.

(** What the code throws or lets through.  [RateLimitError] is the class
    of [src/types/index.ts]; its message is derived from [resetTime] and
    is not carried.  [RangeError] is what [Date.prototype.toISOString]
    raises on the invalid date.  [Failure] stands for any error raised by
    the platform (a [SyntaxError] of [json()], a [TypeError] of the
    transport). *)
Inductive Exception : Type :=
| Error (message : string)
| RateLimitError (resetTime : Date)
| RangeError
| Failure (name message : string).

Inductive outcome (A : Type) : Type :=
| Returns (a : A)
| Throws (e : Exception).
Arguments Returns {A} a.
Arguments Throws {A} e.

(** [date.toISOString()]: defined on valid dates only.  The text itself
    only feeds a log line and the error message, and is not computed. *)
Definition toISOString (d : Date) : outcome unit :=
  match d with
  | ValidDate _ => Returns tt
  | InvalidDate => Throws RangeError
  end.

(** ** [JSON.stringify] *)

Definition hex_lower (d : N) : ascii :=
  ascii_of_N (if N.ltb d 10 then 48 + d else 87 + d).

Definition json_escape (c : ascii) : string :=
  let n := code c in
  if N.eqb n 34 then String (ascii_of_N 92) (String (ascii_of_N 34) "")
  else if N.eqb n 92 then "\\"
  else if N.eqb n 8 then "\b"
  else if N.eqb n 9 then "\t"
  else if N.eqb n 10 then "\n"
  else if N.eqb n 12 then "\f"
  else if N.eqb n 13 then "\r"
  else if N.ltb n 32 then
    "\u00" ++ String (hex_lower (n / 16)) (String (hex_lower (n mod 16)) "")
  else String c "".

Fixpoint json_escape_all (s : string) : string :=
  match s with
  | EmptyString => EmptyString
  | String c r => json_escape c ++ json_escape_all r
  end.

(** QuoteJSONString. *)
Definition json_quote (s : string) : string :=
  let q := String (ascii_of_N 34) "" in
  q ++ json_escape_all s ++ q.

(** [JSON.stringify(v)]: [None] is the [undefined] it returns for
    [undefined].  An [undefined] array element prints as [null], an
    [undefined] property is left out. *)
Fixpoint JSON_stringify (v : JsValue) : option string :=
  match v with
  | JUndefined => None
  | JNull => Some "null"
  | JBool b => Some (if b then "true" else "false")
  | JNum n => Some (Z_toString n)
  | JNumber printed => Some printed
  | JStr s => Some (json_quote s)
  | JArr items =>
      let elements :=
        (fix elements (l : list JsValue) : list string :=
           match l with
           | [] => []
           | x :: r =>
               match JSON_stringify x with
               | Some t => t
               | None => "null"
               end :: elements r
           end) items in
      Some ("[" ++ join "," elements ++ "]")
  | JObj props =>
      let members :=
        (fix members (l : list (string * JsValue)) : list string :=
           match l with
           | [] => []
           | (k, x) :: r =>
               match JSON_stringify x with
               | Some t => (json_quote k ++ ":" ++ t) :: members r
               | None => members r
               end
           end) props in
      Some ("{" ++ join "," members ++ "}")
  end.

(** ** URLs and their query *)

(** A value of [RequestOptions.query]: a string, a number or a boolean.
    A whole number is a [QNum]; any other number is a [QNumber], carried
    by the text that [toString] gives for it ([10.5], [1e+21], [NaN]). *)
Inductive QueryValue : Type :=
| QStr (s : string)
| QNum (n : Z)
| QNumber (printed : string)
| QBool (b : bool).

(** [value.toString()]. *)
Definition QueryValue_toString (v : QueryValue) : string :=
  match v with
  | QStr s => s
  | QNum n => Z_toString n
  | QNumber printed => printed
  | QBool b => if b then "true" else "false"
  end.

(** The query object of a descriptor, as [Object.entries] lists it: its
    properties in property order, [undefined] values as [None].  This is
    the order in which the object received them when no key is an array
    index, which the engine lists first ([Object_entries],
    [is_record]). *)
Definition Query : Type := list (string * option QueryValue).

Definition hex_upper (d : N) : ascii :=
  ascii_of_N (if N.ltb d 10 then 48 + d else 55 + d).

Definition percent_encode (c : ascii) : string :=
  String "%" (String (hex_upper (code c / 16))
                (String (hex_upper (code c mod 16)) "")).

(** The application/x-www-form-urlencoded byte serializer. *)
Definition urlencode_byte (c : ascii) : string :=
  if Ascii.eqb c " " then "+"
  else if is_alnum c || Ascii.eqb c "*" || Ascii.eqb c "-"
          || Ascii.eqb c "." || Ascii.eqb c "_" then String c ""
  else percent_encode c.

Fixpoint urlencode (s : string) : string :=
  match s with
  | EmptyString => EmptyString
  | String c r => urlencode_byte c ++ urlencode r
  end.

Definition urlencode_pair (p : string * string) : string :=
  urlencode (fst p) ++ "=" ++ urlencode (snd p).

(** The application/x-www-form-urlencoded serializer. *)
Definition urlencoded_serialize (l : list (string * string)) : string :=
  join "&" (map urlencode_pair l).

(** A [URL] object.  [location] is everything before the query; the
    query is [None] when the URL has none.  [searchParams] is the list of
    the URL's [URLSearchParams] object. *)
Record URL : Type := mkURL {
  location : string;
  url_query : option string;
  searchParams : list (string * string)
}.

(** [new URL(path, base)], for a base that is an origin (scheme and
    host, as the default [https://api.cuentica.com]: [is_origin]) and a
    path that is absolute and needs no rewriting ([plain_path]), which
    is what every method of the class passes.  Elsewhere the platform
    resolves the path against the base, drops what the base has after
    its host, and throws on a base that is not an absolute URL; the
    model does none of this. *)
Definition URL_new (path base : string) : URL :=
  {| location := base ++ path; url_query := None; searchParams := [] |}.

(** [url.searchParams.append(name, value)]: the pair goes last, and the
    URL's query becomes the serialization of the list. *)
Definition searchParams_append (name value : string) (u : URL) : URL :=
  let l := (searchParams u ++ [(name, value)])%list in
  let s := urlencoded_serialize l in
  {| location := location u;
     url_query := if String.eqb s "" then None else Some s;
     searchParams := l |}.

(** [url.toString()]. *)
Definition URL_toString (u : URL) : string :=
  match url_query u with
  | None => location u
  | Some q => location u ++ "?" ++ q
  end.

(** ** Headers, requests and responses *)

Definition Headers : Type := list (string * string).

(** [headers.get(name)]: names compare without case, several values are
    joined by a comma and a space, [None] is [null]. *)
Definition Headers_get (name : string) (h : Headers) : option string :=
  match filter (fun p => String.eqb (lowercase (fst p)) (lowercase name)) h with
  | [] => None
  | l => Some (join ", " (map snd l))
  end.

Inductive Method : Type := GET | POST | PUT | DELETE.

(** The second argument of [fetch]. *)
Record RequestInit : Type := mkInit {
  init_method : option Method;
  init_headers : Headers;
  init_body : option string
}.

Definition Blob : Type := list Byte.byte.

(** A [Response] as the code uses it: the status, the headers and the
    three body readers, each with the way it settles. *)
Record Response : Type := mkResponse {
  status : N;
  headers : Headers;
  text : outcome string;
  json : outcome JsValue;
  blob : outcome Blob
}.

(** [response.ok]: the status is in the range 200 to 299. *)
Definition ok (r : Response) : bool :=
  N.leb 200 (status r) && N.leb (status r) 299.

(** ** Running the code

    A run yields the calls it made, oldest first, and the way it
    settled.  A throw (a rejected [await]) ends the run: nothing in the
    class catches. *)

Inductive Event : Type :=
| Fetch (url : string) (init : RequestInit)
| ReadText
| ReadJson
| ReadBlob.

Definition Run (A : Type) : Type := (list Event * outcome A)%type.

Definition ret {A : Type} (a : A) : Run A := ([], Returns a).

Definition throw {A : Type} (e : Exception) : Run A := ([], Throws e).

Definition bind {A B : Type} (m : Run A) (k : A -> Run B) : Run B :=
  match m with
  | (t, Returns a) => let '(t', r) := k a in ((t ++ t')%list, r)
  | (t, Throws e) => (t, Throws e)
  end.

(** A call whose outcome is already known, without a trace. *)
Definition lift {A : Type} (o : outcome A) : Run A := ([], o).

(** A call that leaves a trace. *)
Definition perform {A : Type} (ev : Event) (o : outcome A) : Run A := ([ev], o).

Notation "x <- m ;; k" := (bind m (fun x => k))
  (at level 61, m at next level, right associativity).

Definition events {A : Type} (m : Run A) : list Event := fst m.
Definition result {A : Type} (m : Run A) : outcome A := snd m.

Definition is_fetch (ev : Event) : bool :=
  match ev with Fetch _ _ => true | _ => false end.

Definition is_json_read (ev : Event) : bool :=
  match ev with ReadJson => true | _ => false end.

(** ** The class [CuenticaAPI] *)

Record CuenticaAPI : Type := mkAPI {
  token : string;
  baseUrl : string
}.

Definition default_baseUrl : string := "https://api.cuentica.com".

Definition token_required : string :=
  "API token is required. Either pass it to the constructor or set CUENTICA_TOKEN environment variable".

(** [a ?? b]. *)
Definition nullish {A : Type} (a b : option A) : option A :=
  match a with
  | Some x => Some x
  | None => b
  end.

(** The constructor.  [env_token] is [process.env.CUENTICA_TOKEN]. *)
Definition constructor (env_token : option string)
    (token baseUrl : option string) : Run CuenticaAPI :=
  let baseUrl := match baseUrl with Some b => b | None => default_baseUrl end in
  let authToken := nullish token env_token in
  match authToken with
  | Some t =>
      if String.eqb t "" then throw (Error token_required)
      else ret {| token := t; baseUrl := baseUrl |}
  | None => throw (Error token_required)
  end.

Record RequestOptions : Type := mkOptions {
  method : Method;
  path : string;
  body : JsValue;
  query : option Query
}.

(** [new RateLimitError(resetTime)]: the message calls [toISOString]. *)
Definition RateLimitError_new (resetTime : Date) : Run Exception :=
  _ <- lift (toISOString resetTime) ;;
  ret (RateLimitError resetTime).

Definition http_error (r : Response) (errorText : string) : Exception :=
  Error ("HTTP " ++ N_toString (status r) ++ ": " ++ errorText).

(** The [forEach] over [Object.entries(query)]. *)
Definition append_entries (q : Query) (url : URL) : URL :=
  fold_left
    (fun u entry =>
       match snd entry with
       | Some value =>
           searchParams_append (fst entry) (QueryValue_toString value) u
       | None => u
       end)
    q url.

Definition request_url (this : CuenticaAPI) (o : RequestOptions) : URL :=
  let url := URL_new (path o) (baseUrl this) in
  match query o with
  | Some q => append_entries q url
  | None => url
  end.

(** [new Headers({...})], for a token that is a header value as it
    stands ([header_value_kept]).  The platform strips white space around
    a value and throws on a value that holds a NUL, a line feed or a
    carriage return; the model does not. *)
Definition request_headers (this : CuenticaAPI) (o : RequestOptions) : Headers :=
  ("X-AUTH-TOKEN", token this)
  :: (if truthy (body o) then [("Content-Type", "application/json")] else []).

Definition request_init (this : CuenticaAPI) (o : RequestOptions) : RequestInit :=
  {| init_method := Some (method o);
     init_headers := request_headers this o;
     init_body := if truthy (body o) then JSON_stringify (body o) else None |}.

(** The optional list parameters of the methods modelled below. *)
Record ListCustomersParams : Type := mkListCustomers {
  page : option Z;
  page_size : option Z;
  q : option string
}.

(** [ListInvoicesParams] and [ListExpensesParams] after the
    destructuring [{ tags, ...rest }]: [rest] holds the other properties
    in property order. *)
Record ListTaggedParams : Type := mkListTagged {
  tags : option (list string);
  rest : Query
}.

Definition no_params : ListTaggedParams := {| tags := None; rest := [] |}.

Section Client.

(** The network transport, the global [fetch]: how the promise it
    returns settles. *)
Variable fetch : string -> RequestInit -> outcome Response.

Definition call_fetch (url : string) (init : RequestInit) : Run Response :=
  perform (Fetch url init) (fetch url init).

(** [private async request<T>(...)].  Of the calls to the loggers only
    the one of the 429 branch is kept: its argument is a template
    literal that calls [resetTime.toISOString()], which can throw; the
    arguments of the others cannot. *)
Definition request (this : CuenticaAPI) (o : RequestOptions) : Run JsValue :=
  let url := request_url this o in
  response <- call_fetch (URL_toString url) (request_init this o) ;;
  if N.eqb (status response) 429 then
    let resetTime :=
      Date_new (number_mul
                  (Number (Headers_get "X-RateLimit-Reset" (headers response)))
                  (Finite 1000%Q)) in
    (* logError(`Rate limit exceeded. Reset at ${resetTime.toISOString()}`) *)
    _ <- lift (toISOString resetTime) ;;
    (* throw new RateLimitError(resetTime) *)
    e <- RateLimitError_new resetTime ;;
    throw e
  else if negb (ok response) then
    errorText <- perform ReadText (text response) ;;
    throw (http_error response errorText)
  else if N.eqb (status response) 204 then
    ret JUndefined
  else
    data <- perform ReadJson (json response) ;;
    ret data.

Definition getCompany (this : CuenticaAPI) : Run JsValue :=
  request this {| method := GET; path := "/company";
                  body := JUndefined; query := None |}.

Definition getCustomers (this : CuenticaAPI) (params : ListCustomersParams)
  : Run JsValue :=
  let page := match page params with Some p => p | None => 1 end in
  let page_size := match page_size params with Some p => p | None => 100 end in
  request this {| method := GET; path := "/customer"; body := JUndefined;
                  query := Some [("page", Some (QNum page));
                                 ("page_size", Some (QNum page_size));
                                 ("q", option_map QStr (q params))] |}.

Definition createCustomer (this : CuenticaAPI) (customer : JsValue)
  : Run JsValue :=
  request this {| method := POST; path := "/customer";
                  body := customer; query := None |}.

Definition deleteCustomer (this : CuenticaAPI) (id : Z) : Run JsValue :=
  request this {| method := DELETE; path := "/customer/" ++ Z_toString id;
                  body := JUndefined; query := None |}.

(** [{ ...rest, tags: tags?.join(",") }]. *)
Definition tagged_query (params : ListTaggedParams) : Query :=
  (rest params
   ++ [("tags", option_map (fun l => QStr (join "," l)) (tags params))])%list.

Definition getInvoices (this : CuenticaAPI) (params : ListTaggedParams)
  : Run JsValue :=
  request this {| method := GET; path := "/invoice"; body := JUndefined;
                  query := Some (tagged_query params) |}.

Definition getExpenses (this : CuenticaAPI) (params : ListTaggedParams)
  : Run JsValue :=
  request this {| method := GET; path := "/expense"; body := JUndefined;
                  query := Some (tagged_query params) |}.

Definition pdf_url (this : CuenticaAPI) (id : Z) : string :=
  baseUrl this ++ "/invoice/" ++ Z_toString id ++ "/pdf".

Definition pdf_init (this : CuenticaAPI) : RequestInit :=
  {| init_method := None;
     init_headers := [("X-AUTH-TOKEN", token this)];
     init_body := None |}.

Definition getInvoicePdf (this : CuenticaAPI) (id : Z) : Run Blob :=
  response <- call_fetch (pdf_url this id) (pdf_init this) ;;
  if negb (ok response) then
    errorText <- perform ReadText (text response) ;;
    throw (http_error response errorText)
  else
    perform ReadBlob (blob response).

End Client.

(** ** The other methods of the class

    Each one hands a descriptor to [request].  An identifier is a whole
    number, printed in decimal (as the engine does below 2^53 in
    magnitude); a body is the value the caller passes. *)

Section Facade.

Variable fetch : string -> RequestInit -> outcome Response.

Definition getCustomer (this : CuenticaAPI) (id : Z) : Run JsValue :=
  request fetch this {| method := GET; path := "/customer/" ++ Z_toString id;
                        body := JUndefined; query := None |}.

Definition updateCustomer (this : CuenticaAPI) (id : Z) (customer : JsValue)
  : Run JsValue :=
  request fetch this {| method := PUT; path := "/customer/" ++ Z_toString id;
                        body := customer; query := None |}.

Definition getProviders (this : CuenticaAPI) (params : ListCustomersParams)
  : Run JsValue :=
  let page := match page params with Some p => p | None => 1 end in
  let page_size := match page_size params with Some p => p | None => 100 end in
  request fetch this
    {| method := GET; path := "/provider"; body := JUndefined;
       query := Some [("page", Some (QNum page));
                      ("page_size", Some (QNum page_size));
                      ("q", option_map QStr (q params))] |}.

Definition getProvider (this : CuenticaAPI) (id : Z) : Run JsValue :=
  request fetch this {| method := GET; path := "/provider/" ++ Z_toString id;
                        body := JUndefined; query := None |}.

Definition createProvider (this : CuenticaAPI) (provider : JsValue)
  : Run JsValue :=
  request fetch this {| method := POST; path := "/provider";
                        body := provider; query := None |}.

Definition updateProvider (this : CuenticaAPI) (id : Z) (provider : JsValue)
  : Run JsValue :=
  request fetch this {| method := PUT; path := "/provider/" ++ Z_toString id;
                        body := provider; query := None |}.

Definition deleteProvider (this : CuenticaAPI) (id : Z) : Run JsValue :=
  request fetch this {| method := DELETE; path := "/provider/" ++ Z_toString id;
                        body := JUndefined; query := None |}.

Definition getInvoice (this : CuenticaAPI) (id : Z) : Run JsValue :=
  request fetch this {| method := GET; path := "/invoice/" ++ Z_toString id;
                        body := JUndefined; query := None |}.

Definition createInvoice (this : CuenticaAPI) (invoice : JsValue)
  : Run JsValue :=
  request fetch this {| method := POST; path := "/invoice";
                        body := invoice; query := None |}.

Definition updateInvoice (this : CuenticaAPI) (id : Z) (invoice : JsValue)
  : Run JsValue :=
  request fetch this {| method := PUT; path := "/invoice/" ++ Z_toString id;
                        body := invoice; query := None |}.

Definition deleteInvoice (this : CuenticaAPI) (id : Z) : Run JsValue :=
  request fetch this {| method := DELETE; path := "/invoice/" ++ Z_toString id;
                        body := JUndefined; query := None |}.

Definition getExpense (this : CuenticaAPI) (id : Z) : Run JsValue :=
  request fetch this {| method := GET; path := "/expense/" ++ Z_toString id;
                        body := JUndefined; query := None |}.

Definition createExpense (this : CuenticaAPI) (expense : JsValue)
  : Run JsValue :=
  request fetch this {| method := POST; path := "/expense";
                        body := expense; query := None |}.

Definition updateExpense (this : CuenticaAPI) (id : Z) (expense : JsValue)
  : Run JsValue :=
  request fetch this {| method := PUT; path := "/expense/" ++ Z_toString id;
                        body := expense; query := None |}.

Definition deleteExpense (this : CuenticaAPI) (id : Z) : Run JsValue :=
  request fetch this {| method := DELETE; path := "/expense/" ++ Z_toString id;
                        body := JUndefined; query := None |}.

(** [getDocuments] and [getTransfers] pass their parameters object as
    the query; it is given by its entries, none for the default [{}]. *)
Definition getDocuments (this : CuenticaAPI) (params : Query) : Run JsValue :=
  request fetch this {| method := GET; path := "/document";
                        body := JUndefined; query := Some params |}.

Definition getDocument (this : CuenticaAPI) (id : Z) : Run JsValue :=
  request fetch this {| method := GET; path := "/document/" ++ Z_toString id;
                        body := JUndefined; query := None |}.

Definition createDocument (this : CuenticaAPI) (document : JsValue)
  : Run JsValue :=
  request fetch this {| method := POST; path := "/document";
                        body := document; query := None |}.

Definition updateDocument (this : CuenticaAPI) (id : Z) (document : JsValue)
  : Run JsValue :=
  request fetch this {| method := PUT; path := "/document/" ++ Z_toString id;
                        body := document; query := None |}.

Definition deleteDocument (this : CuenticaAPI) (id : Z) : Run JsValue :=
  request fetch this {| method := DELETE; path := "/document/" ++ Z_toString id;
                        body := JUndefined; query := None |}.

Definition getTransfers (this : CuenticaAPI) (params : Query) : Run JsValue :=
  request fetch this {| method := GET; path := "/transfer";
                        body := JUndefined; query := Some params |}.

Definition getTransfer (this : CuenticaAPI) (id : Z) : Run JsValue :=
  request fetch this {| method := GET; path := "/transfer/" ++ Z_toString id;
                        body := JUndefined; query := None |}.

Definition createTransfer (this : CuenticaAPI) (transfer : JsValue)
  : Run JsValue :=
  request fetch this {| method := POST; path := "/transfer";
                        body := transfer; query := None |}.

Definition updateTransfer (this : CuenticaAPI) (id : Z) (transfer : JsValue)
  : Run JsValue :=
  request fetch this {| method := PUT; path := "/transfer/" ++ Z_toString id;
                        body := transfer; query := None |}.

Definition deleteTransfer (this : CuenticaAPI) (id : Z) : Run JsValue :=
  request fetch this {| method := DELETE; path := "/transfer/" ++ Z_toString id;
                        body := JUndefined; query := None |}.

Definition getTags (this : CuenticaAPI) : Run JsValue :=
  request fetch this {| method := GET; path := "/tag";
                        body := JUndefined; query := None |}.

(** The methods by shape, each with its verb and the fixed part of its
    path. *)
Definition methods_by_identifier
  : list (Method * string * (CuenticaAPI -> Z -> Run JsValue)) :=
  [ (GET, "/customer/", getCustomer);
    (DELETE, "/customer/", deleteCustomer fetch);
    (GET, "/provider/", getProvider);
    (DELETE, "/provider/", deleteProvider);
    (GET, "/invoice/", getInvoice);
    (DELETE, "/invoice/", deleteInvoice);
    (GET, "/expense/", getExpense);
    (DELETE, "/expense/", deleteExpense);
    (GET, "/document/", getDocument);
    (DELETE, "/document/", deleteDocument);
    (GET, "/transfer/", getTransfer);
    (DELETE, "/transfer/", deleteTransfer) ].

Definition methods_without_argument
  : list (string * (CuenticaAPI -> Run JsValue)) :=
  [ ("/company", getCompany fetch); ("/tag", getTags) ].

Definition methods_that_create
  : list (string * (CuenticaAPI -> JsValue -> Run JsValue)) :=
  [ ("/customer", createCustomer fetch);
    ("/provider", createProvider);
    ("/invoice", createInvoice);
    ("/expense", createExpense);
    ("/document", createDocument);
    ("/transfer", createTransfer) ].

Definition methods_that_update
  : list (string * (CuenticaAPI -> Z -> JsValue -> Run JsValue)) :=
  [ ("/customer/", updateCustomer);
    ("/provider/", updateProvider);
    ("/invoice/", updateInvoice);
    ("/expense/", updateExpense);
    ("/document/", updateDocument);
    ("/transfer/", updateTransfer) ].

End Facade.

(** ** What the specification speaks of *)

(** The entries of a descriptor's query; none when it has no query. *)
Definition entries (o : RequestOptions) : Query :=
  match query o with
  | Some q => q
  | None => []
  end.

Definition is_present (e : string * option QueryValue) : bool :=
  match snd e with
  | Some _ => true
  | None => false
  end.

Definition entry_text (e : string * option QueryValue) : string * string :=
  (fst e, match snd e with
          | Some v => QueryValue_toString v
          | None => ""
          end).

(** The parameters the specification expects in the URL: the entries
    whose value is not absent, in the order of the descriptor. *)
Definition supplied_parameters (q : Query) : list (string * string) :=
  map entry_text (filter is_present q).

(** The query part of a URL carrying these parameters. *)
Definition query_suffix (l : list (string * string)) : string :=
  match l with
  | [] => ""
  | _ => "?" ++ urlencoded_serialize l
  end.

(** The query of the URL is kept in step with the list of parameters. *)
Definition query_in_step (u : URL) : Prop :=
  url_query u = match searchParams u with
                | [] => None
                | l => Some (urlencoded_serialize l)
                end.

(** A body was supplied in the descriptor. *)
Definition supplied (v : JsValue) : bool :=
  match v with
  | JUndefined => false
  | _ => true
  end.

(** The date the 429 branch of [request] computes from a response. *)
Definition reset_date (r : Response) : Date :=
  Date_new (number_mul
              (Number (Headers_get "X-RateLimit-Reset" (headers r)))
              (Finite 1000%Q)).

(** The first call to the transport in a run. *)
Definition first_fetch {A : Type} (m : Run A) : option (string * RequestInit) :=
  match filter is_fetch (events m) with
  | Fetch u i :: _ => Some (u, i)
  | _ => None
  end.

Definition dispatched_url {A : Type} (m : Run A) : option string :=
  option_map fst (first_fetch m).

Definition fetch_count {A : Type} (m : Run A) : nat :=
  length (filter is_fetch (events m)).

Definition reads_json {A : Type} (m : Run A) : bool :=
  existsb is_json_read (events m).

(** The calls to the body readers in a run. *)
Definition body_reads {A : Type} (m : Run A) : list Event :=
  filter (fun ev => negb (is_fetch ev)) (events m).

(** *** Reading a query back

    The application/x-www-form-urlencoded parser of the URL standard,
    which [URLSearchParams] and the servers apply to a query, up to its
    last step (the bytes are not decoded as UTF-8). *)

Fixpoint plus_to_space (s : string) : string :=
  match s with
  | EmptyString => EmptyString
  | String c r =>
      String (if Ascii.eqb c "+" then " "%char else c) (plus_to_space r)
  end.

Definition hex_byte (h l : Z) : ascii := ascii_of_N (Z.to_N (16 * h + l)).

(** Percent-decoding: a percent sign followed by two hexadecimal
    digits is the byte they write; any other byte is kept. *)
Fixpoint percent_decode (s : string) : string :=
  match s with
  | EmptyString => EmptyString
  | String c r =>
      if Ascii.eqb c "%" then
        match r with
        | String a (String b r') =>
            match digit_in 16 a, digit_in 16 b with
            | Some h, Some l => String (hex_byte h l) (percent_decode r')
            | _, _ => String c (percent_decode r)
            end
        | _ => String c (percent_decode r)
        end
      else String c (percent_decode r)
  end.

Definition urldecode (s : string) : string := percent_decode (plus_to_space s).

(** The pieces of a string between the occurrences of a separator. *)
Fixpoint split_on (sep : ascii) (s : string) : list string :=
  match s with
  | EmptyString => [EmptyString]
  | String c r =>
      if Ascii.eqb c sep then EmptyString :: split_on sep r
      else match split_on sep r with
           | h :: t => String c h :: t
           | [] => [String c EmptyString]
           end
  end.

(** A piece cut at its first equals sign; the value is empty when there
    is none. *)
Fixpoint cut_at_equals (s : string) : string * string :=
  match s with
  | EmptyString => (EmptyString, EmptyString)
  | String c r =>
      if Ascii.eqb c "=" then (EmptyString, r)
      else let '(n, v) := cut_at_equals r in (String c n, v)
  end.

Definition urlencoded_parse (s : string) : list (string * string) :=
  flat_map
    (fun piece =>
       if String.eqb piece "" then []
       else let '(n, v) := cut_at_equals piece in [(urldecode n, urldecode v)])
    (split_on "&" s).

(** Every character of a string passes a test. *)
Fixpoint all_chars (P : ascii -> bool) (s : string) : bool :=
  match s with
  | EmptyString => true
  | String c r => P c && all_chars P r
  end.

(** The characters the serializer writes. *)
Definition query_safe (c : ascii) : bool :=
  is_alnum c || Ascii.eqb c "*" || Ascii.eqb c "-" || Ascii.eqb c "."
  || Ascii.eqb c "_" || Ascii.eqb c "+" || Ascii.eqb c "%"
  || Ascii.eqb c "=" || Ascii.eqb c "&".

(** The query that [getCustomers] and [getProviders] build. *)
Definition page_query (params : ListCustomersParams) : string :=
  "page=" ++ Z_toString (match page params with Some p => p | None => 1 end)
  ++ "&page_size="
  ++ Z_toString (match page_size params with Some p => p | None => 100 end)
  ++ match q params with
     | Some t => "&q=" ++ urlencode t
     | None => ""
     end.

(** No entry of a query has a value. *)
Definition all_undefined (params : Query) : Prop :=
  forall e, In e params -> snd e = None.

(** ** The inputs on which the model stands for the platform *)

(** [s] without the prefix [p], when it starts with it. *)
Fixpoint strip_prefix (p s : string) : option string :=
  match p, s with
  | EmptyString, _ => Some s
  | String a p', String b s' =>
      if Ascii.eqb a b then strip_prefix p' s' else None
  | String _ _, EmptyString => None
  end.

(** A host made of labels of lower-case letters, separated by single
    dots: the URL parser keeps such a host as it is written. *)
Fixpoint host_labels (s : string) (in_label : bool) : bool :=
  match s with
  | EmptyString => in_label
  | String c r =>
      if is_lower c then host_labels r true
      else if Ascii.eqb c "." then in_label && host_labels r false
      else false
  end.

(** The base address is an origin: [http://] or [https://] and a host,
    with no port, no path and no closing slash. *)
Definition is_origin (base : string) : bool :=
  match strip_prefix "https://" base with
  | Some host => host_labels host false
  | None =>
      match strip_prefix "http://" base with
      | Some host => host_labels host false
      | None => false
      end
  end.

(** The path starts with a single slash: resolved against an origin it
    replaces the path and cannot fail. *)
Definition path_absolute (p : string) : bool :=
  match p with
  | String a r =>
      Ascii.eqb a "/"
      && match r with
         | String b _ => negb (Ascii.eqb b "/" || N.eqb (code b) 92)
         | EmptyString => true
         end
  | EmptyString => false
  end.

Definition path_char (c : ascii) : bool :=
  is_alnum c || Ascii.eqb c "/" || Ascii.eqb c "-" || Ascii.eqb c "_".

(** An absolute path of letters, digits, [/], [-] and [_]: the URL parser
    keeps it as it is written. *)
Definition plain_path (p : string) : bool :=
  path_absolute p && all_chars path_char p.

(** HTTP tab or space. *)
Definition is_blank (c : ascii) : bool :=
  N.eqb (code c) 9 || N.eqb (code c) 32.

(** An ASCII character other than NUL, line feed and carriage return. *)
Definition header_byte (c : ascii) : bool :=
  N.ltb (code c) 128
  && negb (N.eqb (code c) 0 || N.eqb (code c) 10 || N.eqb (code c) 13).

Fixpoint last_char (s : string) : option ascii :=
  match s with
  | EmptyString => None
  | String c EmptyString => Some c
  | String _ r => last_char r
  end.

(** A header value of the Fetch standard that [Headers] stores as it is
    given: ASCII text with no NUL and no newline in it and no blank at
    either end. *)
Definition header_value_kept (t : string) : bool :=
  all_chars header_byte t
  && match t with
     | String c _ => negb (is_blank c)
     | EmptyString => true
     end
  && match last_char t with
     | Some c => negb (is_blank c)
     | None => true
     end.

(** A client whose base address is an origin and whose token is a header
    value as it stands. *)
Definition usable (this : CuenticaAPI) : bool :=
  is_origin (baseUrl this) && header_value_kept (token this).

(** A whole number below 2^53 in magnitude: a binary64 value that the
    engine prints in decimal, digit by digit. *)
Definition safe_integer (n : Z) : bool :=
  Z.ltb (- 2 ^ 53) n && Z.ltb n (2 ^ 53).

Definition safe_option (n : option Z) : bool :=
  match n with
  | Some n => safe_integer n
  | None => true
  end.

(** The whole numbers of a query are safe integers. *)
Definition safe_query (q : Query) : bool :=
  forallb (fun e => match snd e with
                    | Some (QNum n) => safe_integer n
                    | _ => true
                    end) q.

(** The whole numbers inside a value are safe integers. *)
Fixpoint safe_numbers (v : JsValue) : bool :=
  match v with
  | JNum n => safe_integer n
  | JArr items => forallb safe_numbers items
  | JObj props => forallb (fun p => safe_numbers (snd p)) props
  | _ => true
  end.

(** A key written with digits only, which an engine may take for an
    array index and list before the other keys. *)
Definition index_like (k : string) : bool :=
  negb (String.eqb k "") && all_chars is_digit k.

Fixpoint distinct (l : list string) : bool :=
  match l with
  | [] => true
  | k :: r => negb (existsb (String.eqb k) r) && distinct r
  end.

(** The entries are those of an object as its writer listed them: no
    key occurs twice and none is written with digits only. *)
Definition is_record (q : Query) : bool :=
  distinct (map fst q) && forallb (fun k => negb (index_like k)) (map fst q).

(** *** [Object.entries]

    The order in which an engine lists the properties of an object that
    received them in a given order (OrdinaryOwnPropertyKeys): the keys
    that are array indices first, by ascending value, then the other
    keys in the order in which they were added. *)

Definition index_value (k : string) : Z := fst (fst (digits 10 k 0 0)).

(** An array index: the canonical numeral of a whole number below
    2^32 - 1. *)
Definition is_array_index (k : string) : bool :=
  index_like k
  && (String.eqb k "0"
      || negb (match k with
               | String c _ => Ascii.eqb c "0"
               | EmptyString => false
               end))
  && Z.leb (index_value k) 4294967294.

(** Adding a property: a key that is there keeps its place and takes the
    new value, a new key goes last. *)
Fixpoint assign (k : string) (v : option QueryValue) (props : Query) : Query :=
  match props with
  | [] => [(k, v)]
  | (k', v') :: r =>
      if String.eqb k k' then (k, v) :: r else (k', v') :: assign k v r
  end.

Fixpoint insert_index (e : string * option QueryValue) (l : Query) : Query :=
  match l with
  | [] => [e]
  | e' :: r =>
      if Z.leb (index_value (fst e)) (index_value (fst e')) then e :: l
      else e' :: insert_index e r
  end.

(** [Object.entries(query)], for a query that received its properties
    in the order [added]. *)
Definition Object_entries (added : Query) : Query :=
  let props := fold_left (fun acc e => assign (fst e) (snd e) acc) added [] in
  (fold_right insert_index [] (filter (fun e => is_array_index (fst e)) props)
   ++ filter (fun e => negb (is_array_index (fst e))) props)%list.

(** *** The text of a value

    What [value.toString()] gives, stated apart from
    [QueryValue_toString]: a string is its own text, a boolean is [true]
    or [false], a whole number is the numeral that the decimal reader of
    the Standard Library reads back as this number. *)
Inductive printed : QueryValue -> string -> Prop :=
| printed_string (s : string) : printed (QStr s) s
| printed_true : printed (QBool true) "true"
| printed_false : printed (QBool false) "false"
| printed_whole (n : Z) (s : string) :
    NilZero.int_of_string s = Some (Z.to_int n) -> printed (QNum n) s
| printed_number (s : string) : printed (QNumber s) s.

(** [pairs] are the entries of [q] that have a value, one for one and in
    their order, each under its key and with the text of its value. *)
Definition sent_as (q : Query) (pairs : list (string * string)) : Prop :=
  Forall2 (fun e p => fst p = fst e
                      /\ exists v, snd e = Some v /\ printed v (snd p))
    (filter is_present q) pairs.

(** The query text of these pairs: each name and value encoded, an equals
    sign between them, the pairs joined by [&]. *)
Definition query_text (pairs : list (string * string)) : string :=
  join "&" (map (fun p => urlencode (fst p) ++ "=" ++ urlencode (snd p)) pairs).

(** The double quote and the backslash. *)
Definition dq : string := String (ascii_of_N 34) "".
Definition bs : string := String (ascii_of_N 92) "".

(** *** The text of a body

    The texts of the elements of an array, [null] standing for an
    element that has none, and of the properties of an object, each the
    quoted key, a colon and the text of the value. *)
Definition element_texts (items : list JsValue) (texts : list string) : Prop :=
  Forall2 (fun x t => JSON_stringify x = Some t
                      \/ (JSON_stringify x = None /\ t = "null"))
    items texts.

Definition member_texts (props : list (string * JsValue))
    (texts : list string) : Prop :=
  Forall2 (fun p t => exists s, JSON_stringify (snd p) = Some s
                                /\ t = json_quote (fst p) ++ ":" ++ s)
    props texts.

(** ** Sample values *)

Definition sample_api : CuenticaAPI :=
  {| token := "test-token"; baseUrl := default_baseUrl |}.

(** A transport that answers every call with the same response. *)
Definition reply (r : Response) : string -> RequestInit -> outcome Response :=
  fun _ _ => Returns r.

(** A response whose body is some text that is not JSON. *)
Definition plain_response (s : N) (h : Headers) (t : string) : Response :=
  {| status := s; headers := h; text := Returns t;
     json := Throws (Failure "SyntaxError" "Unexpected token");
     blob := Returns [] |}.

Definition company_request : RequestOptions :=
  {| method := GET; path := "/company"; body := JUndefined; query := None |}.

Definition search_request : RequestOptions :=
  {| method := GET; path := "/customer"; body := JUndefined;
     query := Some [("page", Some (QNum 2)); ("q", None);
                    ("serie", Some (QStr "")); ("issued", Some (QBool true))] |}.

(** A 429 response that announces its reset time in whole seconds. *)
Definition rate_limited_response : Response :=
  plain_response 429 [("X-RateLimit-Reset", "1700000000")] "Too Many Requests".

(** A 429 response whose reset header is an HTTP date, not a number. *)
Definition dated_429_response : Response :=
  plain_response 429 [("X-RateLimit-Reset", "Wed, 21 Oct 2015 07:28:00 GMT")]
    "Too Many Requests".

(** A 429 response whose reset header is a number of seconds beyond the
    range of [Date]. *)
Definition far_429_response : Response :=
  plain_response 429 [("X-RateLimit-Reset", "10000000000000")]
    "Too Many Requests".

(** A 429 response whose reset header is not a whole number of
    milliseconds. *)
Definition fractional_429_response : Response :=
  plain_response 429 [("X-RateLimit-Reset", "1700000000.0005")]
    "Too Many Requests".

Definition server_error_response : Response :=
  plain_response 500 [] "Internal Server Error".

Definition no_content_response : Response :=
  plain_response 204 [("Content-Type", "application/json")] "".

(** A 200 response whose body is not JSON: [json()] rejects. *)
Definition garbled_response : Response :=
  plain_response 200 [("Content-Type", "text/plain")] "<html>".

(** A 200 response whose body decodes to a value. *)
Definition json_response (v : JsValue) : Response :=
  {| status := 200; headers := []; text := Returns "";
     json := Returns v; blob := Returns [] |}.

(** A transport that fails: the promise of [fetch] rejects. *)
Definition network_down : string -> RequestInit -> outcome Response :=
  fun _ _ => Throws (Failure "TypeError" "Network error").

(** A 429 response whose reset header is a time in seconds with
    milliseconds, as [getTime() / 1000] prints it. *)
Definition millisecond_429_response : Response :=
  plain_response 429 [("X-RateLimit-Reset", "1730585000.123")] "".

Definition pdf_response : Response :=
  {| status := 200; headers := [("Content-Type", "application/pdf")];
     text := Returns "%PDF";
     json := Throws (Failure "SyntaxError" "Unexpected token");
     blob := Returns [Byte.x25; Byte.x50; Byte.x44; Byte.x46] |}.

(** A customer as a caller passes it, and its JSON text. *)
Definition sample_customer : JsValue :=
  JObj [("name", JStr "Ada"); ("age", JNum 36); ("ratio", JNumber "0.5");
        ("tags", JArr [JStr "a"; JNull; JUndefined]); ("active", JBool true);
        ("note", JUndefined); ("address", JObj [("city", JStr "Vigo")])].

Definition sample_customer_text : string :=
  "{" ++ dq ++ "name" ++ dq ++ ":" ++ dq ++ "Ada" ++ dq
  ++ "," ++ dq ++ "age" ++ dq ++ ":36"
  ++ "," ++ dq ++ "ratio" ++ dq ++ ":0.5"
  ++ "," ++ dq ++ "tags" ++ dq ++ ":[" ++ dq ++ "a" ++ dq ++ ",null,null]"
  ++ "," ++ dq ++ "active" ++ dq ++ ":true"
  ++ "," ++ dq ++ "address" ++ dq ++ ":{" ++ dq ++ "city" ++ dq ++ ":"
  ++ dq ++ "Vigo" ++ dq ++ "}}".

(** A descriptor that posts the sample customer. *)
Definition customer_request : RequestOptions :=
  {| method := POST; path := "/customer"; body := sample_customer;
     query := None |}.

(** A 429 response without a reset header. *)
Definition bare_429_response : Response :=
  plain_response 429 [("Retry-After", "30")] "Too Many Requests".

(** A 500 response whose body cannot be read. *)
Definition unreadable_response : Response :=
  {| status := 500; headers := [];
     text := Throws (Failure "TypeError" "terminated");
     json := Throws (Failure "TypeError" "terminated");
     blob := Throws (Failure "TypeError" "terminated") |}.

Definition delete_request : RequestOptions :=
  {| method := DELETE; path := "/customer/7"; body := JUndefined;
     query := None |}.

(** ** Strings and serialization *)

Lemma string_app_assoc (a b c : string) : (a ++ b) ++ c = a ++ (b ++ c).
Proof.
  induction a as [| x a IH]; simpl.
  - reflexivity.
  - now rewrite IH.
Qed.

Lemma string_app_empty_r (a : string) : a ++ "" = a.
Proof.
  induction a as [| x a IH]; simpl.
  - reflexivity.
  - now rewrite IH.
Qed.

Lemma string_app_empty (a b : string) : a ++ b = "" -> a = "" /\ b = "".
Proof.
  destruct a; simpl; intros H.
  - now split.
  - discriminate.
Qed.

Lemma urlencode_pair_nonempty (p : string * string) : urlencode_pair p <> "".
Proof.
  unfold urlencode_pair. intros H.
  apply string_app_empty in H. destruct H as [_ H]. discriminate.
Qed.

Lemma serialize_nonempty (p : string * string) (l : list (string * string)) :
  String.eqb (urlencoded_serialize (p :: l)) "" = false.
Proof.
  apply String.eqb_neq. unfold urlencoded_serialize, join. simpl.
  destruct (map urlencode_pair l).
  - apply urlencode_pair_nonempty.
  - intros H. apply string_app_empty in H.
    destruct H as [H _]. now apply urlencode_pair_nonempty in H.
Qed.

Lemma serialize_last_nonempty (l : list (string * string)) (p : string * string) :
  String.eqb (urlencoded_serialize (l ++ [p])) "" = false.
Proof.
  destruct l; simpl; apply serialize_nonempty.
Qed.

(** An explicitly empty value is written as the key and an equals sign. *)
Lemma urlencode_pair_empty_value (k : string) :
  urlencode_pair (k, "") = urlencode k ++ "=".
Proof. reflexivity. Qed.

(** ** The URL of a request *)

Lemma append_entries_location (q : Query) (u : URL) :
  location (append_entries q u) = location u.
Proof.
  revert u. induction q as [| [k [v |]] q IH]; intros u; simpl.
  - reflexivity.
  - unfold append_entries in *. simpl. now rewrite IH.
  - unfold append_entries in *. simpl. now rewrite IH.
Qed.

Lemma append_entries_searchParams (q : Query) (u : URL) :
  searchParams (append_entries q u)
  = (searchParams u ++ supplied_parameters q)%list.
Proof.
  revert u. induction q as [| [k [v |]] q IH]; intros u.
  - simpl. now rewrite app_nil_r.
  - unfold append_entries in *. simpl. rewrite IH. simpl.
    now rewrite <- app_assoc.
  - unfold append_entries in *. simpl. now rewrite IH.
Qed.

Lemma append_entries_in_step (q : Query) (u : URL) :
  query_in_step u -> query_in_step (append_entries q u).
Proof.
  revert u. induction q as [| [k [v |]] q IH]; intros u Hu.
  - exact Hu.
  - unfold append_entries in *. simpl. apply IH.
    unfold query_in_step, searchParams_append. simpl.
    rewrite serialize_last_nonempty.
    destruct (searchParams u); reflexivity.
  - unfold append_entries in *. simpl. now apply IH.
Qed.

Lemma request_url_searchParams (this : CuenticaAPI) (o : RequestOptions) :
  searchParams (request_url this o) = supplied_parameters (entries o).
Proof.
  unfold request_url, entries. destruct (query o) as [q |].
  - now rewrite append_entries_searchParams.
  - reflexivity.
Qed.

Lemma request_url_toString (this : CuenticaAPI) (o : RequestOptions) :
  URL_toString (request_url this o)
  = baseUrl this ++ path o ++ query_suffix (supplied_parameters (entries o)).
Proof.
  assert (Hstep : query_in_step (request_url this o)).
  { unfold request_url. destruct (query o).
    - apply append_entries_in_step. reflexivity.
    - reflexivity. }
  assert (Hloc : location (request_url this o) = baseUrl this ++ path o).
  { unfold request_url. destruct (query o).
    - now rewrite append_entries_location.
    - reflexivity. }
  unfold URL_toString. rewrite Hstep, Hloc, request_url_searchParams.
  unfold query_suffix.
  destruct (supplied_parameters (entries o)).
  - now rewrite string_app_empty_r.
  - now rewrite string_app_assoc.
Qed.

Lemma supplied_parameters_In (q : Query) (k s : string) :
  In (k, s) (supplied_parameters q)
  <-> exists v, In (k, Some v) q /\ s = QueryValue_toString v.
Proof.
  unfold supplied_parameters. rewrite in_map_iff. split.
  - intros [[k' [v |]] [Heq Hin]]; apply filter_In in Hin;
      destruct Hin as [Hin Hp]; try discriminate.
    unfold entry_text in Heq. simpl in Heq. inversion Heq; subst.
    now exists v.
  - intros [v [Hin ->]]. exists (k, Some v). split.
    + reflexivity.
    + apply filter_In. now split.
Qed.

Lemma supplied_parameters_app (a b : Query) :
  supplied_parameters (a ++ b)%list
  = (supplied_parameters a ++ supplied_parameters b)%list.
Proof.
  unfold supplied_parameters. now rewrite filter_app, map_app.
Qed.

Lemma stringify_truthy (v : JsValue) :
  truthy v = true -> exists s, JSON_stringify v = Some s.
Proof.
  destruct v; simpl; intros H; try discriminate; eauto.
Qed.

(** ** The branches of [request] *)

Section Pipeline.

Variable fetch : string -> RequestInit -> outcome Response.
Variable this : CuenticaAPI.
Variable o : RequestOptions.

Lemma request_transport_failure (e : Exception) :
  fetch (URL_toString (request_url this o)) (request_init this o) = Throws e ->
  request fetch this o
  = ([Fetch (URL_toString (request_url this o)) (request_init this o)],
     Throws e).
Proof.
  intros H. unfold request, call_fetch, perform, bind.
  now rewrite H.
Qed.

Lemma request_rate_limited (r : Response) :
  fetch (URL_toString (request_url this o)) (request_init this o) = Returns r ->
  status r = 429%N ->
  request fetch this o
  = ([Fetch (URL_toString (request_url this o)) (request_init this o)],
     match toISOString (reset_date r) with
     | Returns _ => Throws (RateLimitError (reset_date r))
     | Throws e => Throws e
     end).
Proof.
  intros H Hs. unfold request, call_fetch, perform, bind.
  rewrite H, Hs. simpl. fold (reset_date r).
  unfold RateLimitError_new, lift, bind.
  destruct (toISOString (reset_date r)); reflexivity.
Qed.

Lemma request_not_ok (r : Response) :
  fetch (URL_toString (request_url this o)) (request_init this o) = Returns r ->
  status r <> 429%N ->
  ok r = false ->
  request fetch this o
  = ([Fetch (URL_toString (request_url this o)) (request_init this o);
      ReadText],
     match text r with
     | Returns t => Throws (http_error r t)
     | Throws e => Throws e
     end).
Proof.
  intros H Hs Hok. unfold request, call_fetch, perform, bind.
  rewrite H.
  apply N.eqb_neq in Hs. rewrite Hs, Hok. simpl.
  destruct (text r); reflexivity.
Qed.

Lemma request_no_content (r : Response) :
  fetch (URL_toString (request_url this o)) (request_init this o) = Returns r ->
  status r = 204%N ->
  request fetch this o
  = ([Fetch (URL_toString (request_url this o)) (request_init this o)],
     Returns JUndefined).
Proof.
  intros H Hs. unfold request, call_fetch, perform, bind.
  rewrite H. unfold ok. rewrite Hs. reflexivity.
Qed.

Lemma request_decodes (r : Response) :
  fetch (URL_toString (request_url this o)) (request_init this o) = Returns r ->
  ok r = true ->
  status r <> 204%N ->
  request fetch this o
  = ([Fetch (URL_toString (request_url this o)) (request_init this o);
      ReadJson],
     json r).
Proof.
  intros H Hok Hs. unfold request, call_fetch, perform, bind.
  rewrite H.
  assert (H429 : N.eqb (status r) 429 = false).
  { apply N.eqb_neq. intros E. unfold ok in Hok. rewrite E in Hok.
    discriminate. }
  apply N.eqb_neq in Hs. rewrite H429, Hok, Hs. simpl.
  destruct (json r); reflexivity.
Qed.

(** Whatever the transport answers, a run of [request] starts with the
    one call to it. *)
Lemma request_first_fetch :
  first_fetch (request fetch this o)
  = Some (URL_toString (request_url this o), request_init this o).
Proof.
  unfold first_fetch, events, request, call_fetch, perform, bind.
  destruct (fetch _ _) as [r | e].
  - match goal with
    | |- context [let '(_, _) := ?m in _] => destruct m
    end.
    reflexivity.
  - reflexivity.
Qed.

(** Whatever the transport answers, [request] calls it once. *)
Lemma request_fetches_once : fetch_count (request fetch this o) = 1%nat.
Proof.
  unfold fetch_count, events, request, call_fetch, perform, bind.
  destruct (fetch _ _) as [r | e]; [| reflexivity].
  destruct (N.eqb (status r) 429).
  - unfold RateLimitError_new, lift, bind, ret, throw.
    destruct (toISOString _); reflexivity.
  - destruct (negb (ok r)).
    + unfold throw. destruct (text r); reflexivity.
    + destruct (N.eqb (status r) 204); [reflexivity |].
      unfold ret. destruct (json r); reflexivity.
Qed.

End Pipeline.

(** ** Reading a query back: the serializer and the parser *)

Lemma all_chars_app (P : ascii -> bool) (a b : string) :
  all_chars P (a ++ b) = all_chars P a && all_chars P b.
Proof.
  induction a as [| c a IH]; simpl.
  - reflexivity.
  - now rewrite IH, andb_assoc.
Qed.

Lemma all_chars_weaken (P Q : ascii -> bool) (s : string) :
  (forall c, P c = true -> Q c = true) ->
  all_chars P s = true -> all_chars Q s = true.
Proof.
  intros HPQ. induction s as [| c s IH]; simpl.
  - reflexivity.
  - intros H. apply andb_true_iff in H. destruct H as [Hc Hs].
    now rewrite (HPQ c Hc), IH.
Qed.

(** What the serializer writes for one byte: letters, digits and the
    marks [* - . _ + %]. *)
Lemma urlencode_byte_plain (c : ascii) :
  all_chars (fun x => query_safe x && negb (Ascii.eqb x "&")
                      && negb (Ascii.eqb x "="))
    (urlencode_byte c) = true.
Proof.
  destruct c as [[] [] [] [] [] [] [] []]; reflexivity.
Qed.

Lemma urlencode_plain (s : string) :
  all_chars (fun x => query_safe x && negb (Ascii.eqb x "&")
                      && negb (Ascii.eqb x "="))
    (urlencode s) = true.
Proof.
  induction s as [| c s IH]; simpl.
  - reflexivity.
  - now rewrite all_chars_app, urlencode_byte_plain, IH.
Qed.

Lemma urlencode_without (sep : ascii) (s : string) :
  sep = "&"%char \/ sep = "="%char ->
  all_chars (fun x => negb (Ascii.eqb x sep)) (urlencode s) = true.
Proof.
  intros Hsep. refine (all_chars_weaken _ _ _ _ (urlencode_plain s)).
  intros c H. apply andb_true_iff in H. destruct H as [H Heq].
  apply andb_true_iff in H. destruct H as [_ Hamp].
  destruct Hsep; subst sep; assumption.
Qed.

(** Decoding undoes the encoding of a byte, whatever follows. *)
Lemma urldecode_byte (c : ascii) (t : string) :
  urldecode (urlencode_byte c ++ t) = String c (urldecode t).
Proof.
  unfold urldecode.
  destruct c as [[] [] [] [] [] [] [] []]; reflexivity.
Qed.

Lemma urldecode_urlencode (s : string) : urldecode (urlencode s) = s.
Proof.
  induction s as [| c s IH]; simpl.
  - reflexivity.
  - now rewrite urldecode_byte, IH.
Qed.

Lemma split_on_free (sep : ascii) (a : string) :
  all_chars (fun x => negb (Ascii.eqb x sep)) a = true ->
  split_on sep a = [a]
  /\ forall b, split_on sep (a ++ String sep b) = a :: split_on sep b.
Proof.
  induction a as [| c a IH]; simpl.
  - intros _. split; [reflexivity |]. intros b.
    now rewrite Ascii.eqb_refl.
  - intros H. apply andb_true_iff in H. destruct H as [Hc Ha].
    apply negb_true_iff in Hc. rewrite Hc.
    destruct (IH Ha) as [H1 H2]. split.
    + now rewrite H1.
    + intros b. now rewrite H2.
Qed.

Lemma cut_at_first_equals (a b : string) :
  all_chars (fun x => negb (Ascii.eqb x "=")) a = true ->
  cut_at_equals (a ++ String "=" b) = (a, b).
Proof.
  induction a as [| c a IH]; simpl.
  - reflexivity.
  - intros H. apply andb_true_iff in H. destruct H as [Hc Ha].
    apply negb_true_iff in Hc. rewrite Hc. now rewrite (IH Ha).
Qed.

Lemma urlencode_pair_without_ampersand (p : string * string) :
  all_chars (fun x => negb (Ascii.eqb x "&")) (urlencode_pair p) = true.
Proof.
  unfold urlencode_pair. rewrite !all_chars_app.
  rewrite !(urlencode_without "&") by now left. reflexivity.
Qed.

(** One piece of a query is read back as the pair it was written for. *)
Lemma parse_piece (p : string * string) :
  (if String.eqb (urlencode_pair p) "" then []
   else let '(n, v) := cut_at_equals (urlencode_pair p) in
        [(urldecode n, urldecode v)])
  = [p].
Proof.
  destruct (String.eqb_spec (urlencode_pair p) "") as [E | _].
  - now apply urlencode_pair_nonempty in E.
  - unfold urlencode_pair.
    change (urlencode (fst p) ++ "=" ++ urlencode (snd p))
      with (urlencode (fst p) ++ String "=" (urlencode (snd p))).
    rewrite cut_at_first_equals.
    + rewrite !urldecode_urlencode. now destruct p.
    + apply urlencode_without. now right.
Qed.

Lemma parse_serialize (l : list (string * string)) :
  urlencoded_parse (urlencoded_serialize l) = l.
Proof.
  unfold urlencoded_parse, urlencoded_serialize, join.
  induction l as [| p l IH].
  - reflexivity.
  - destruct l as [| p' l'].
    + simpl String.concat. simpl map.
      destruct (split_on_free "&" (urlencode_pair p)
                  (urlencode_pair_without_ampersand p)) as [H1 _].
      rewrite H1. cbn [flat_map]. rewrite parse_piece. reflexivity.
    + change (String.concat "&" (map urlencode_pair (p :: p' :: l')))
        with (urlencode_pair p
              ++ String "&" (String.concat "&" (map urlencode_pair (p' :: l')))).
      destruct (split_on_free "&" (urlencode_pair p)
                  (urlencode_pair_without_ampersand p)) as [_ H2].
      rewrite H2. cbn [flat_map]. rewrite parse_piece, IH. reflexivity.
Qed.

Lemma serialize_safe (l : list (string * string)) :
  all_chars query_safe (urlencoded_serialize l) = true.
Proof.
  assert (Hpair : forall p, all_chars query_safe (urlencode_pair p) = true).
  { intros p. unfold urlencode_pair. rewrite !all_chars_app.
    assert (H : forall s, all_chars query_safe (urlencode s) = true).
    { intros s. refine (all_chars_weaken _ _ _ _ (urlencode_plain s)).
      intros c Hc. apply andb_true_iff in Hc. destruct Hc as [Hc _].
      apply andb_true_iff in Hc. now destruct Hc. }
    now rewrite !H. }
  unfold urlencoded_serialize, join.
  induction l as [| p l IH].
  - reflexivity.
  - destruct l as [| p' l'].
    + apply Hpair.
    + change (String.concat "&" (map urlencode_pair (p :: p' :: l')))
        with (urlencode_pair p
              ++ String "&" (String.concat "&" (map urlencode_pair (p' :: l')))).
      rewrite all_chars_app, Hpair. cbn [all_chars andb].
      now rewrite IH.
Qed.

Lemma request_url_query (this : CuenticaAPI) (o : RequestOptions) :
  url_query (request_url this o)
  = match supplied_parameters (entries o) with
    | [] => None
    | l => Some (urlencoded_serialize l)
    end.
Proof.
  assert (Hstep : query_in_step (request_url this o)).
  { unfold request_url. destruct (query o).
    - apply append_entries_in_step. reflexivity.
    - reflexivity. }
  unfold query_in_step in Hstep.
  now rewrite Hstep, request_url_searchParams.
Qed.

(** ** The text of values and of queries *)

Lemma Z_toString_read (n : Z) :
  NilZero.int_of_string (Z_toString n) = Some (Z.to_int n).
Proof.
  unfold Z_toString. apply NilZero.isi.
  - destruct n as [| p | p]; simpl; try discriminate.
    intros E. inversion E as [E'].
    now apply DecimalPos.Unsigned.to_uint_nonnil in E'.
  - destruct n as [| p | p]; simpl; try discriminate.
    intros E. inversion E as [E'].
    now apply DecimalPos.Unsigned.to_uint_nonnil in E'.
Qed.

(** [QueryValue_toString] gives the text of a value, and nothing else
    is one. *)
Lemma printed_text (v : QueryValue) (s : string) :
  printed v s <-> s = QueryValue_toString v.
Proof.
  split.
  - intros H. destruct H; try reflexivity.
    simpl. symmetry. unfold Z_toString. now apply NilZero.sis.
  - intros ->. destruct v as [s | n | s | [|]]; simpl; constructor.
    apply Z_toString_read.
Qed.

Lemma sent_as_supplied (q : Query) : sent_as q (supplied_parameters q).
Proof.
  unfold sent_as, supplied_parameters.
  induction q as [| [k [v |]] q IH]; simpl.
  - constructor.
  - constructor; [| exact IH].
    split; [reflexivity |]. exists v. split; [reflexivity |].
    now apply printed_text.
  - exact IH.
Qed.

Lemma sent_as_unique (q : Query) (pairs : list (string * string)) :
  sent_as q pairs -> pairs = supplied_parameters q.
Proof.
  unfold sent_as, supplied_parameters. revert pairs.
  induction q as [| [k [v |]] q IH]; simpl; intros pairs H.
  - now inversion H.
  - inversion H as [| e [k' s] l l' [Hk [v' [Hv Hp]]] Hrest]; subst.
    simpl in Hk, Hv, Hp. inversion Hv. subst v' k'.
    apply printed_text in Hp. subst s.
    f_equal. now apply IH.
  - now apply IH.
Qed.

Lemma query_text_serialize (l : list (string * string)) :
  query_text l = urlencoded_serialize l.
Proof. reflexivity. Qed.

Lemma existsb_eqb_In (k : string) (l : list string) :
  existsb (String.eqb k) l = true <-> In k l.
Proof.
  rewrite existsb_exists. split.
  - intros [x [Hin Hx]]. apply String.eqb_eq in Hx. now subst.
  - intros H. exists k. split; [exact H | apply String.eqb_refl].
Qed.

(** A key of a record has one value. *)
Lemma distinct_lookup (q : Query) (k : string) (a b : option QueryValue) :
  distinct (map fst q) = true -> In (k, a) q -> In (k, b) q -> a = b.
Proof.
  induction q as [| [k' v] q IH]; simpl; intros Hd Ha Hb; [contradiction |].
  apply andb_true_iff in Hd. destruct Hd as [Hfresh Hd].
  apply negb_true_iff in Hfresh.
  assert (Hnot : forall x, In (k', x) q -> False).
  { intros x Hx. apply (in_map fst) in Hx. simpl in Hx.
    apply existsb_eqb_In in Hx. congruence. }
  destruct Ha as [Ha | Ha], Hb as [Hb | Hb].
  - congruence.
  - inversion Ha. subst. now apply Hnot in Hb.
  - inversion Hb. subst. now apply Hnot in Ha.
  - now apply IH.
Qed.

(** ** The order of the entries of a record *)

Lemma distinct_app (a b : list string) (k : string) :
  distinct (a ++ b) = true -> In k a -> ~ In k b.
Proof.
  induction a as [| x a IH]; simpl; intros Hd Hin Hb; [contradiction |].
  apply andb_true_iff in Hd. destruct Hd as [Hfresh Hd].
  destruct Hin as [-> | Hin].
  - apply negb_true_iff in Hfresh.
    assert (Hx : existsb (String.eqb k) (a ++ b) = true).
    { apply existsb_eqb_In. apply in_or_app. now right. }
    congruence.
  - now apply (IH Hd Hin).
Qed.

Lemma assign_fresh (k : string) (v : option QueryValue) (props : Query) :
  ~ In k (map fst props) -> assign k v props = (props ++ [(k, v)])%list.
Proof.
  induction props as [| [k' v'] props IH]; simpl; intros H; [reflexivity |].
  destruct (String.eqb_spec k k') as [-> | _].
  - exfalso. apply H. now left.
  - f_equal. apply IH. intros Hin. apply H. now right.
Qed.

Lemma assign_all (q acc : Query) :
  distinct (map fst (acc ++ q)) = true ->
  fold_left (fun a e => assign (fst e) (snd e) a) q acc = (acc ++ q)%list.
Proof.
  revert acc. induction q as [| [k v] q IH]; intros acc Hd; simpl.
  - now rewrite app_nil_r.
  - rewrite assign_fresh.
    + rewrite IH; rewrite <- app_assoc; [reflexivity | exact Hd].
    + intros Hin. rewrite map_app in Hd.
      apply (distinct_app _ _ k Hd Hin). now left.
Qed.

(** The entries of a record are listed in the order in which they were
    added. *)
Lemma Object_entries_record (added : Query) :
  is_record added = true -> Object_entries added = added.
Proof.
  unfold is_record, Object_entries. intros H.
  apply andb_true_iff in H. destruct H as [Hd Hk].
  cbv zeta. rewrite (assign_all added [] Hd).
  change ([] ++ added)%list with added.
  assert (Hnone : forall e, In e added -> is_array_index (fst e) = false).
  { intros e He. rewrite forallb_forall in Hk.
    assert (Hx : negb (index_like (fst e)) = true)
      by (apply Hk; now apply in_map).
    apply negb_true_iff in Hx. unfold is_array_index. now rewrite Hx. }
  assert (H1 : filter (fun e => is_array_index (fst e)) added = []).
  { clear Hd Hk. induction added as [| e added IH]; [reflexivity |].
    simpl. rewrite (Hnone e (or_introl eq_refl)).
    apply IH. intros x Hx. apply Hnone. now right. }
  assert (H2 : filter (fun e => negb (is_array_index (fst e))) added = added).
  { clear Hd Hk H1. induction added as [| e added IH]; [reflexivity |].
    simpl. rewrite (Hnone e (or_introl eq_refl)). simpl. f_equal.
    apply IH. intros x Hx. apply Hnone. now right. }
  rewrite H1, H2. reflexivity.
Qed.

(** ** The text of a body *)

Lemma stringify_array (items : list JsValue) (texts : list string) :
  element_texts items texts ->
  JSON_stringify (JArr items) = Some ("[" ++ join "," texts ++ "]").
Proof.
  unfold element_texts. intros H. cbn [JSON_stringify].
  apply f_equal. apply (f_equal (fun l => "[" ++ join "," l ++ "]")).
  induction H as [| x t items texts Hx _ IH].
  - reflexivity.
  - rewrite <- IH. destruct Hx as [Hx | [Hx ->]];
      cbn -[JSON_stringify]; now rewrite Hx.
Qed.

Lemma stringify_object (props : list (string * JsValue)) (texts : list string) :
  member_texts props texts ->
  JSON_stringify (JObj props) = Some ("{" ++ join "," texts ++ "}").
Proof.
  unfold member_texts. intros H. cbn [JSON_stringify].
  apply f_equal. apply (f_equal (fun l => "{" ++ join "," l ++ "}")).
  induction H as [| [k x] t props texts [s [Hs ->]] _ IH].
  - reflexivity.
  - rewrite <- IH. cbn [snd fst] in Hs |- *.
    cbn -[JSON_stringify json_quote]. now rewrite Hs.
Qed.

(** A string of letters and digits needs no escape. *)
Lemma json_escape_plain (s : string) :
  all_chars is_alnum s = true -> json_escape_all s = s.
Proof.
  induction s as [| c s IH]; simpl; intros H; [reflexivity |].
  apply andb_true_iff in H. destruct H as [Hc Hs].
  rewrite (IH Hs).
  assert (E : json_escape c = String c "").
  { unfold json_escape, is_alnum, is_digit, is_upper, is_lower, in_range in *.
    destruct (N.eqb_spec (code c) 34) as [E | _]; [rewrite E in Hc; discriminate |].
    destruct (N.eqb_spec (code c) 92) as [E | _]; [rewrite E in Hc; discriminate |].
    destruct (N.eqb_spec (code c) 8) as [E | _]; [rewrite E in Hc; discriminate |].
    destruct (N.eqb_spec (code c) 9) as [E | _]; [rewrite E in Hc; discriminate |].
    destruct (N.eqb_spec (code c) 10) as [E | _]; [rewrite E in Hc; discriminate |].
    destruct (N.eqb_spec (code c) 12) as [E | _]; [rewrite E in Hc; discriminate |].
    destruct (N.eqb_spec (code c) 13) as [E | _]; [rewrite E in Hc; discriminate |].
    destruct (N.ltb_spec (code c) 32) as [E | _]; [| reflexivity].
    exfalso.
    repeat match goal with
           | H : (_ || _)%bool = true |- _ => apply orb_true_iff in H; destruct H
           | H : (_ && _)%bool = true |- _ => apply andb_true_iff in H; destruct H
           | H : N.leb _ _ = true |- _ => apply N.leb_le in H
           end; lia. }
  now rewrite E.
Qed.

Lemma stringify_object_skips (k : string) (props : list (string * JsValue)) :
  JSON_stringify (JObj ((k, JUndefined) :: props)) = JSON_stringify (JObj props).
Proof. reflexivity. Qed.

(** ** Assembly of the outbound request *)

Section Assembly.

Variable fetch : string -> RequestInit -> outcome Response.
Variable this : CuenticaAPI.


(** C4.  For a usable client, [getInvoices] and [getExpenses] join a
    supplied list of tags with commas and pass it last, after the other
    parameters: the URL carries [tags=] followed by the encoded joined
    text, [tags=a%2Cb] for the tags [a] and [b] and the bare [tags=] for
    the empty list; without a list of tags the URL carries no [tags]
    parameter. *)
Theorem tags_are_comma_joined (others : Query) (l : list string) :
  usable this = true ->
  is_record (tagged_query {| tags := Some l; rest := others |}) = true ->
  safe_query others = true ->
  let with_tags := {| tags := Some l; rest := others |} in
  let without := {| tags := None; rest := others |} in
  let ab := {| tags := Some ["a"; "b"]; rest := [] |} in
  let empty := {| tags := Some []; rest := [] |} in
  (dispatched_url (getInvoices fetch this with_tags)
   = Some (baseUrl this ++ "/invoice"
           ++ query_suffix (supplied_parameters others
                            ++ [("tags", join "," l)])%list)
   /\ dispatched_url (getExpenses fetch this with_tags)
      = Some (baseUrl this ++ "/expense"
              ++ query_suffix (supplied_parameters others
                               ++ [("tags", join "," l)])%list))
  /\ (dispatched_url (getInvoices fetch this without)
      = Some (baseUrl this ++ "/invoice"
              ++ query_suffix (supplied_parameters others))
      /\ dispatched_url (getExpenses fetch this without)
         = Some (baseUrl this ++ "/expense"
                 ++ query_suffix (supplied_parameters others)))
  /\ (join "," ["a"; "b"] = "a,b"
      /\ dispatched_url (getInvoices fetch this ab)
         = Some (baseUrl this ++ "/invoice?tags=a%2Cb")
      /\ dispatched_url (getExpenses fetch this ab)
         = Some (baseUrl this ++ "/expense?tags=a%2Cb"))
  /\ (join "," [] = ""
      /\ dispatched_url (getInvoices fetch this empty)
         = Some (baseUrl this ++ "/invoice?tags=")
      /\ dispatched_url (getExpenses fetch this empty)
         = Some (baseUrl this ++ "/expense?tags="))
  /\ (dispatched_url (getInvoices fetch this no_params)
      = Some (baseUrl this ++ "/invoice")
      /\ dispatched_url (getExpenses fetch this no_params)
         = Some (baseUrl this ++ "/expense"))
  /\ sent_as (tagged_query with_tags)
       (supplied_parameters others ++ [("tags", join "," l)])%list
  /\ sent_as (tagged_query without) (supplied_parameters others)
  /\ ~ In "tags" (map fst (supplied_parameters others)).
Proof.
  intros _ Hrecord _ with_tags without ab empty.
  assert (H : forall p params,
             dispatched_url
               (request fetch this
                  {| method := GET; path := p; body := JUndefined;
                     query := Some (tagged_query params) |})
             = Some (baseUrl this ++ p
                     ++ query_suffix
                          (supplied_parameters (tagged_query params)))).
  { intros p params. unfold dispatched_url.
    rewrite request_first_fetch. simpl.
    now rewrite request_url_toString. }
  assert (Hwith : supplied_parameters (tagged_query with_tags)
                  = (supplied_parameters others ++ [("tags", join "," l)])%list).
  { unfold tagged_query, with_tags. rewrite supplied_parameters_app.
    reflexivity. }
  assert (Hwithout : supplied_parameters (tagged_query without)
                     = supplied_parameters others).
  { unfold tagged_query, without. rewrite supplied_parameters_app. simpl.
    apply app_nil_r. }
  split; [| split; [| split; [| split; [| split; [| split; [| split]]]]]].
  - unfold getInvoices, getExpenses. rewrite !H, Hwith. split; reflexivity.
  - unfold getInvoices, getExpenses. rewrite !H, Hwithout. split; reflexivity.
  - unfold getInvoices, getExpenses. rewrite !H. repeat split.
  - unfold getInvoices, getExpenses. rewrite !H. repeat split.
  - unfold getInvoices, getExpenses. rewrite !H. repeat split.
  - rewrite <- Hwith. apply sent_as_supplied.
  - rewrite <- Hwithout. apply sent_as_supplied.
  - intros Hin. apply in_map_iff in Hin.
    destruct Hin as [[k s] [Hk Hin]]. simpl in Hk. subst k.
    apply supplied_parameters_In in Hin. destruct Hin as [v [Hv _]].
    unfold is_record in Hrecord. apply andb_true_iff in Hrecord.
    destruct Hrecord as [Hd _].
    assert (E : Some v = Some (QStr (join "," l))).
    { apply (distinct_lookup _ "tags" _ _ Hd); unfold tagged_query;
        apply in_or_app; [left; exact Hv | right; left; reflexivity]. }
    assert (Hlast : In ("tags", Some (QStr (join "," l))) others).
    { inversion E. subst v. exact Hv. }
    clear E Hv. unfold tagged_query in Hd. simpl in Hd.
    rewrite map_app in Hd. simpl in Hd.
    apply (in_map fst) in Hlast. simpl in Hlast.
    revert Hd Hlast. clear.
    induction (map fst others) as [| k ks IH]; simpl; intros Hd Hin;
      [contradiction |].
    apply andb_true_iff in Hd. destruct Hd as [Hfresh Hd].
    destruct Hin as [-> | Hin].
    + apply negb_true_iff in Hfresh.
      assert (Hx : existsb (String.eqb "tags") (ks ++ ["tags"]) = true).
      { apply existsb_eqb_In. apply in_or_app. right. now left. }
      congruence.
    + now apply IH.
Qed.


End Assembly.


(** C4 on two tags after a date. *)
Lemma tags_are_comma_joined_witness :
  usable sample_api = true
  /\ dispatched_url
       (getInvoices network_down sample_api
          {| tags := Some ["tag1"; "tag2"];
             rest := [("initial_date", Some (QStr "2024-01-01"))] |})
     = Some "https://api.cuentica.com/invoice?initial_date=2024-01-01&tags=tag1%2Ctag2".
Proof.
  split; [reflexivity |].
  exact (proj1 (proj1 (tags_are_comma_joined network_down sample_api
                         [("initial_date", Some (QStr "2024-01-01"))]
                         ["tag1"; "tag2"] eq_refl eq_refl eq_refl))).
Defined.



(** ** Whole numbers in binary64, and their dates *)

Lemma round_half_even_exact (a d : Z) : 0 < d -> round_half_even (a * d) d = a.
Proof.
  intros Hd. unfold round_half_even.
  rewrite Z.mod_mul, Z.div_mul by lia.
  replace (2 * 0) with 0 by lia.
  destruct (Z.compare_spec 0 d); lia.
Qed.

Lemma scale2_whole (s a e : Z) :
  e <= 0 -> (scale2 (s * (a * 2 ^ (- e))) e == inject_Z (s * a))%Q.
Proof.
  intros He. unfold scale2.
  destruct (Z.leb_spec 0 e).
  - assert (e = 0) by lia. subst e. simpl.
    replace (s * (a * 1) * 1) with (s * a) by lia. reflexivity.
  - unfold Qeq, inject_Z. simpl.
    assert (0 < 2 ^ (- e)) by (apply Z.pow_pos_nonneg; lia).
    rewrite Z2Pos.id by lia. lia.
Qed.

(** The exponent that [binary64] chooses for a whole number below 2^53
    is not positive: no bit of it is rounded away. *)
Lemma exponent_of_whole (a d : Z) :
  0 < a < 2 ^ 53 -> 0 < d ->
  let n := a * d in
  let l := Z.log2 n - Z.log2 d in
  let k := if at_least_pow2 n d l then l else l - 1 in
  Z.max (k - 52) (-1074) <= 0.
Proof.
  intros Ha Hd n l k.
  assert (Hn : 0 < n) by (unfold n; nia).
  assert (Hl : l <= 53).
  { assert (Z.log2 n < 54 + Z.log2 d); [| unfold l; lia].
    apply Z.log2_lt_pow2; [exact Hn |].
    pose proof (Z.log2_nonneg d) as Hd0.
    assert (Hd1 : d < 2 ^ (Z.log2 d + 1)).
    { replace (Z.log2 d + 1) with (Z.succ (Z.log2 d)) by lia.
      now apply Z.log2_spec. }
    rewrite Z.pow_add_r in Hd1 by lia.
    rewrite Z.pow_add_r by lia.
    change (2 ^ 54) with (2 ^ 53 * 2). unfold n.
    assert (0 < 2 ^ Z.log2 d) by (apply Z.pow_pos_nonneg; lia).
    nia. }
  assert (Hk : k <= 52).
  { unfold k. destruct (at_least_pow2 n d l) eqn:E; [| lia].
    destruct (Z.eq_dec l 53) as [E53 |]; [| lia].
    exfalso. unfold at_least_pow2 in E. rewrite E53 in E. simpl in E.
    apply Z.leb_le in E. unfold n in E. nia. }
  lia.
Qed.

(** A whole number below 2^53 in magnitude is its own binary64 value. *)
Lemma binary64_whole (x : Q) (z : Z) :
  (x == inject_Z z)%Q -> Z.abs z < 2 ^ 53 ->
  exists y, binary64 x = Finite y /\ (y == inject_Z z)%Q.
Proof.
  intros Hx Hz. unfold Qeq in Hx. simpl in Hx. rewrite Z.mul_1_r in Hx.
  unfold binary64. rewrite Hx.
  set (d := Zpos (Qden x)). assert (Hd : 0 < d) by (unfold d; lia).
  rewrite Z.abs_mul, (Z.abs_eq d) by lia.
  destruct (Z.eqb_spec (Z.abs z * d) 0) as [E0 | E0].
  - exists 0%Q. split; [reflexivity |].
    assert (z = 0) by nia. subst z. reflexivity.
  - assert (Ha : 0 < Z.abs z < 2 ^ 53) by nia.
    pose proof (exponent_of_whole (Z.abs z) d Ha Hd) as He.
    cbv zeta in He.
    set (e := Z.max _ _) in *. clearbody e.
    assert (Hm : (if Z.leb 0 e
                  then round_half_even (Z.abs z * d) (d * 2 ^ e)
                  else round_half_even (Z.abs z * d * 2 ^ (- e)) d)
                 = Z.abs z * 2 ^ (- e)).
    { destruct (Z.leb_spec 0 e).
      - assert (e = 0) by lia. subst e.
        change (2 ^ (- 0)) with 1. change (2 ^ 0) with 1.
        rewrite !Z.mul_1_r. now apply round_half_even_exact.
      - replace (Z.abs z * d * 2 ^ (- e)) with (Z.abs z * 2 ^ (- e) * d) by lia.
        now apply round_half_even_exact. }
    rewrite Hm.
    assert (Hlog : Z.log2 (Z.abs z * 2 ^ (- e)) + e = Z.log2 (Z.abs z)).
    { rewrite Z.log2_mul_pow2 by lia. lia. }
    rewrite Hlog.
    assert (Hlt : Z.log2 (Z.abs z) < 53) by (apply Z.log2_lt_pow2; lia).
    destruct (Z.leb_spec 1024 (Z.log2 (Z.abs z))); [lia |].
    eexists. split; [reflexivity |].
    rewrite Qred_correct.
    rewrite Z.sgn_mul, (Z.sgn_pos d) by lia. rewrite Z.mul_1_r.
    rewrite scale2_whole by exact He.
    assert (Hs : Z.sgn z * Z.abs z = z) by (destruct z; reflexivity).
    now rewrite Hs.
Qed.

Lemma truncate_whole (x : Q) (n : Z) : (x == inject_Z n)%Q -> truncate x = n.
Proof.
  unfold Qeq, truncate. simpl. intros H.
  rewrite Z.mul_1_r in H. rewrite H.
  apply Z.quot_mul. discriminate.
Qed.

Lemma Date_new_whole (x : Q) (n : Z) :
  (x == inject_Z n)%Q ->
  - max_time <= n <= max_time ->
  Date_new (Finite x) = ValidDate n.
Proof.
  intros Hx Hn. unfold Date_new.
  assert (Hle : Qle_bool (Qabs x) (inject_Z max_time) = true).
  { apply Qle_bool_iff. rewrite Hx.
    unfold max_time in *. unfold Qabs, inject_Z, Qle. simpl. lia. }
  rewrite Hle. now rewrite (truncate_whole x n).
Qed.

(** The date of a product that is a whole number of milliseconds. *)
Lemma reset_date_whole (r : Response) (p : Q) (ms : Z) :
  number_mul (Number (Headers_get "X-RateLimit-Reset" (headers r)))
    (Finite 1000%Q) = Finite p ->
  (p == inject_Z ms)%Q ->
  - max_time <= ms <= max_time ->
  reset_date r = ValidDate ms.
Proof.
  intros Hp Hq Hms. unfold reset_date. rewrite Hp.
  now apply Date_new_whole.
Qed.

(** A whole number of seconds gives a whole number of milliseconds. *)
Lemma whole_seconds_product (T : Q) (seconds : Z) :
  (T == inject_Z seconds)%Q ->
  - max_time <= seconds * 1000 <= max_time ->
  exists p, number_mul (Finite T) (Finite 1000%Q) = Finite p
            /\ (p == inject_Z (seconds * 1000))%Q.
Proof.
  intros HT Hs. simpl.
  apply binary64_whole.
  - rewrite HT. unfold Qeq, inject_Z, Qmult. simpl. lia.
  - unfold max_time in Hs.
    assert (8640000000000000 < 2 ^ 53) by reflexivity. lia.
Qed.

(** ** Classification of the response *)

Section Classification.

Variable fetch : string -> RequestInit -> outcome Response.
Variable this : CuenticaAPI.
Variable o : RequestOptions.

(** C1, amended.  For every 429 response whose [X-RateLimit-Reset]
    header reads as a finite number [T] of seconds (an absent header
    reads as 0) for which [T * 1000], as the code computes it, is a
    whole number of milliseconds within the range of [Date], [request]
    fails with a [RateLimitError] whose reset time is [T * 1000]
    milliseconds since the epoch; every whole number [T] of seconds
    with [T * 1000] in that range is such.  The response is not 2xx,
    yet the branch of the generic error is not taken: the body is not
    read and the failure is no [HTTP ...] error. *)
Theorem rate_limit_reset_time (r : Response) :
  fetch (URL_toString (request_url this o)) (request_init this o)
  = Returns r ->
  status r = 429%N ->
  let header := Headers_get "X-RateLimit-Reset" (headers r) in
  let sent := Fetch (URL_toString (request_url this o)) (request_init this o) in
  (forall p ms,
      number_mul (Number header) (Finite 1000%Q) = Finite p ->
      (p == inject_Z ms)%Q ->
      - max_time <= ms <= max_time ->
      request fetch this o
      = ([sent], Throws (RateLimitError (ValidDate ms))))
  /\ (forall T seconds,
        Number header = Finite T ->
        (T == inject_Z seconds)%Q ->
        - max_time <= seconds * 1000 <= max_time ->
        request fetch this o
        = ([sent], Throws (RateLimitError (ValidDate (seconds * 1000)))))
  /\ ok r = false
  /\ (forall t, result (request fetch this o) <> Throws (http_error r t))
  /\ events (request fetch this o) = [sent].
Proof.
  intros Hf Hs header sent.
  pose proof (request_rate_limited fetch this o r Hf Hs) as Hrun.
  assert (Hwhole : forall p ms,
             number_mul (Number header) (Finite 1000%Q) = Finite p ->
             (p == inject_Z ms)%Q ->
             - max_time <= ms <= max_time ->
             request fetch this o
             = ([sent], Throws (RateLimitError (ValidDate ms)))).
  { intros p ms Hp Hq Hms.
    rewrite Hrun, (reset_date_whole r p ms Hp Hq Hms). reflexivity. }
  split; [exact Hwhole |]. split; [| split; [| split]].
  - intros T seconds HT Hq Hms.
    destruct (whole_seconds_product T seconds Hq Hms) as [p [Hp Hpq]].
    apply (Hwhole p (seconds * 1000)); [| exact Hpq | exact Hms].
    fold header in HT |- *. now rewrite HT.
  - unfold ok. now rewrite Hs.
  - intros t. rewrite Hrun. unfold result, toISOString, http_error. simpl.
    destruct (reset_date r); discriminate.
  - rewrite Hrun. reflexivity.
Qed.


(** C6.  For every response with status 204, whatever its headers and
    whatever its body readers would give, [request] succeeds with
    [undefined], and it does not call [json()]. *)
Theorem no_content_returns_undefined (r : Response) :
  fetch (URL_toString (request_url this o)) (request_init this o)
  = Returns r ->
  status r = 204%N ->
  result (request fetch this o) = Returns JUndefined
  /\ reads_json (request fetch this o) = false
  /\ events (request fetch this o)
     = [Fetch (URL_toString (request_url this o)) (request_init this o)].
Proof.
  intros Hf Hs.
  rewrite (request_no_content fetch this o r Hf Hs).
  repeat split.
Qed.

(** C9.  For every 2xx response other than 204, the run of [request]
    settles as [json()] settles: when [json()] rejects with an error,
    [request] rejects with that same error, and a result is returned
    only when [json()] returned it. *)
Theorem decode_failure_propagates (r : Response) :
  fetch (URL_toString (request_url this o)) (request_init this o)
  = Returns r ->
  ok r = true ->
  status r <> 204%N ->
  result (request fetch this o) = json r
  /\ (forall e, json r = Throws e ->
                result (request fetch this o) = Throws e)
  /\ (forall v, result (request fetch this o) = Returns v ->
                json r = Returns v).
Proof.
  intros Hf Hok Hs.
  rewrite (request_decodes fetch this o r Hf Hok Hs).
  unfold result. simpl. repeat split.
  - now intros e ->.
  - now intros v ->.
Qed.


End Classification.

(** C1, amended, on a 429 response that resets at 1700000000 seconds. *)
Lemma rate_limit_reset_time_witness :
  status rate_limited_response = 429%N
  /\ Number (Headers_get "X-RateLimit-Reset" (headers rate_limited_response))
     = Finite (1700000000 # 1)
  /\ request (reply rate_limited_response) sample_api company_request
     = ([Fetch "https://api.cuentica.com/company"
           {| init_method := Some GET;
              init_headers := [("X-AUTH-TOKEN", "test-token")];
              init_body := None |}],
        Throws (RateLimitError (ValidDate 1700000000000))).
Proof.
  split; [reflexivity |]. split; [reflexivity |].
  destruct (rate_limit_reset_time (reply rate_limited_response) sample_api
              company_request rate_limited_response eq_refl eq_refl)
    as [_ [H _]].
  refine (H (1700000000 # 1) 1700000000 _ _ _).
  - reflexivity.
  - reflexivity.
  - unfold max_time. lia.
Defined.

(** C1 as stated fails on three 429 responses.  The reset header of the
    first is an HTTP date and reads as [NaN]; that of the second is a
    number of seconds whose thousandfold no [Date] can hold: in both
    the date is invalid, [toISOString] raises a [RangeError] while the
    log line is built, and no [RateLimitError] is thrown.  The header
    of the third is a number of seconds whose thousandfold ends in half
    a millisecond: the reset time of the [RateLimitError] is that
    product cut to whole milliseconds, not the product. *)
Lemma rate_limit_without_exact_date :
  (status dated_429_response = 429%N
   /\ Number (Headers_get "X-RateLimit-Reset" (headers dated_429_response))
      = NaN
   /\ result (request (reply dated_429_response) sample_api company_request)
      = Throws RangeError)
  /\ (status far_429_response = 429%N
      /\ Number (Headers_get "X-RateLimit-Reset" (headers far_429_response))
         = Finite (10000000000000 # 1)
      /\ result (request (reply far_429_response) sample_api company_request)
         = Throws RangeError)
  /\ (status fractional_429_response = 429%N
      /\ number_mul
           (Number (Headers_get "X-RateLimit-Reset"
                      (headers fractional_429_response)))
           (Finite 1000%Q)
         = Finite (3400000000001 # 2)
      /\ result (request (reply fractional_429_response) sample_api
                   company_request)
         = Throws (RateLimitError (ValidDate 1700000000000))).
Proof. repeat split. Qed.


(** C6 on a 204 response that declares JSON and whose [json()] would
    reject. *)
Lemma no_content_returns_undefined_witness :
  status no_content_response = 204%N
  /\ json no_content_response = Throws (Failure "SyntaxError" "Unexpected token")
  /\ result (request (reply no_content_response) sample_api company_request)
     = Returns JUndefined
  /\ reads_json (request (reply no_content_response) sample_api company_request)
     = false.
Proof.
  split; [reflexivity |]. split; [reflexivity |].
  destruct (no_content_returns_undefined (reply no_content_response)
              sample_api company_request no_content_response
              eq_refl eq_refl) as [H1 [H2 _]].
  exact (conj H1 H2).
Defined.

(** C9 on a 200 response whose body is not JSON. *)
Lemma decode_failure_propagates_witness :
  ok garbled_response = true
  /\ status garbled_response <> 204%N
  /\ result (request (reply garbled_response) sample_api company_request)
     = Throws (Failure "SyntaxError" "Unexpected token").
Proof.
  split; [reflexivity |]. split; [discriminate |].
  refine (proj1 (decode_failure_propagates (reply garbled_response)
                   sample_api company_request garbled_response _ _ _)).
  - reflexivity.
  - reflexivity.
  - discriminate.
Defined.


(** ** Construction of the client *)

(** C7, amended.  The constructor makes no call to the network.
    Without a token argument and without [CUENTICA_TOKEN] it throws the
    error that a token is required.  It returns a client only with a
    non-empty token: that of the argument when one is given, else that
    of the environment, stored with the base address (the default when
    none is given).  With a non-empty token argument, or with no
    argument and a non-empty [CUENTICA_TOKEN], construction succeeds. *)
Theorem constructor_needs_a_token (env tok base : option string) :
  let address := match base with Some b => b | None => default_baseUrl end in
  events (constructor env tok base) = []
  /\ (tok = None -> env = None ->
      result (constructor env tok base) = Throws (Error token_required))
  /\ (forall t, tok = Some t -> t <> "" ->
        result (constructor env tok base)
        = Returns {| token := t; baseUrl := address |})
  /\ (forall t, tok = None -> env = Some t -> t <> "" ->
        result (constructor env tok base)
        = Returns {| token := t; baseUrl := address |})
  /\ (forall api, result (constructor env tok base) = Returns api ->
        token api <> "" /\ nullish tok env = Some (token api)
        /\ baseUrl api = address).
Proof.
  intros address. unfold constructor. fold address.
  repeat split.
  - destruct (nullish tok env) as [t |]; [destruct (String.eqb t "") |];
      reflexivity.
  - intros -> ->. reflexivity.
  - intros t -> Ht. simpl. apply String.eqb_neq in Ht. now rewrite Ht.
  - intros t -> -> Ht. simpl. apply String.eqb_neq in Ht. now rewrite Ht.
  - destruct (nullish tok env) as [t |]; [| discriminate].
    destruct (String.eqb t "") eqn:Ht; [discriminate |].
    apply String.eqb_neq in Ht. unfold result, ret in H. simpl in H.
    inversion H. exact Ht.
  - destruct (nullish tok env) as [t |]; [| discriminate].
    destruct (String.eqb t "") eqn:Ht; [discriminate |].
    unfold result, ret in H. simpl in H. now inversion H.
  - destruct (nullish tok env) as [t |]; [| discriminate].
    destruct (String.eqb t "") eqn:Ht; [discriminate |].
    unfold result, ret in H. simpl in H. now inversion H.
Qed.

(** C7 as stated fails when the environment provides a token and the
    argument is the empty string: construction throws. *)
Lemma environment_token_is_not_used :
  constructor (Some "env-token") (Some "") None
  = ([], Throws (Error token_required)).
Proof. reflexivity. Qed.

(** C10.  With the empty string as token argument the constructor
    throws the error that a token is required, whatever
    [CUENTICA_TOKEN] holds: the environment is read only when the
    argument is absent, and any token that is absent or empty is
    refused. *)
Theorem empty_token_argument_is_refused (env base : option string) :
  constructor env (Some "") base = ([], Throws (Error token_required))
  /\ constructor (Some "env-token") (Some "") base
     = ([], Throws (Error token_required))
  /\ (forall t, nullish (Some t) env = Some t)
  /\ nullish None env = env
  /\ (forall api tok, result (constructor env tok base) = Returns api ->
        token api <> "").
Proof.
  repeat split.
  intros api tok. unfold constructor.
  destruct (nullish tok env) as [t |]; [| discriminate].
  destruct (String.eqb t "") eqn:Ht; [discriminate |].
  apply String.eqb_neq in Ht. unfold result, ret. simpl.
  intros H. inversion H. exact Ht.
Qed.

(** ** The cases of the test suite, run on the model *)


Example company_is_returned_unchanged :
  let company := JObj [("id", JNum 1); ("name", JStr "Test Company")] in
  getCompany (reply (json_response company)) sample_api
  = ([Fetch "https://api.cuentica.com/company"
        {| init_method := Some GET;
           init_headers := [("X-AUTH-TOKEN", "test-token")];
           init_body := None |};
      ReadJson],
     Returns company).
Proof. reflexivity. Qed.

Example customers_default_to_first_page :
  dispatched_url
    (getCustomers (reply (json_response (JArr []))) sample_api
       {| page := None; page_size := None; q := None |})
  = Some "https://api.cuentica.com/customer?page=1&page_size=100".
Proof. reflexivity. Qed.

Example invoices_with_filters :
  dispatched_url
    (getInvoices (reply (json_response (JArr []))) sample_api
       {| tags := Some ["tag1"; "tag2"];
          rest := [("initial_date", Some (QStr "2024-01-01"));
                   ("end_date", Some (QStr "2024-12-31"))] |})
  = Some ("https://api.cuentica.com/invoice"
          ++ "?initial_date=2024-01-01&end_date=2024-12-31&tags=tag1%2Ctag2").
Proof. reflexivity. Qed.

Example absent_and_empty_parameters :
  dispatched_url (request (reply (json_response (JArr []))) sample_api
                    search_request)
  = Some "https://api.cuentica.com/customer?page=2&serie=&issued=true".
Proof. reflexivity. Qed.

Example customer_is_posted_as_json :
  first_fetch
    (createCustomer (reply (json_response JNull)) sample_api
       (JObj [("name", JStr "New Customer"); ("tags", JArr [])]))
  = Some ("https://api.cuentica.com/customer",
          {| init_method := Some POST;
             init_headers := [("X-AUTH-TOKEN", "test-token");
                              ("Content-Type", "application/json")];
             init_body :=
               JSON_stringify
                 (JObj [("name", JStr "New Customer"); ("tags", JArr [])]) |}).
Proof. reflexivity. Qed.

Example deleted_customer_gives_undefined :
  result (deleteCustomer (reply no_content_response) sample_api 1)
  = Returns JUndefined.
Proof. reflexivity. Qed.

Example network_error_propagates :
  result (getCompany network_down sample_api)
  = Throws (Failure "TypeError" "Network error").
Proof. reflexivity. Qed.

Example reset_time_with_milliseconds :
  result (getCompany (reply millisecond_429_response) sample_api)
  = Throws (RateLimitError (ValidDate 1730585000123)).
Proof. vm_compute. reflexivity. Qed.

(** The binary64 product of 1.005 and 1000 is just below 1005. *)
Example product_is_rounded_then_cut :
  Date_new (number_mul (StringToNumber "1.005") (Finite 1000%Q))
  = ValidDate 1004.
Proof. vm_compute. reflexivity. Qed.

Example number_of_text :
  StringToNumber " 42 " = Finite 42%Q
  /\ StringToNumber "" = Finite 0%Q
  /\ StringToNumber "0x1F" = Finite 31%Q
  /\ StringToNumber "1e3" = Finite 1000%Q
  /\ StringToNumber "-Infinity" = Infinity true
  /\ StringToNumber "12px" = NaN
  /\ StringToNumber "." = NaN.
Proof. vm_compute. repeat split. Qed.

(** A key that is an array index is listed first, whatever the order in
    which the object received it, and a key given twice keeps its first
    place with its last value; a record is listed as it was filled. *)
Example object_entries_order :
  Object_entries [("b", Some (QStr "x")); ("10", Some (QStr "y"));
                  ("2", Some (QStr "z")); ("b", Some (QStr "w"));
                  ("a", None)]
  = [("2", Some (QStr "z")); ("10", Some (QStr "y"));
     ("b", Some (QStr "w")); ("a", None)]
  /\ Object_entries (entries search_request) = entries search_request.
Proof. split; reflexivity. Qed.

(** ** The methods of the class, one by one *)

Ltac open_method :=
  cbv delta [createCustomer createProvider createInvoice createExpense
             createDocument createTransfer updateCustomer updateProvider
             updateInvoice updateExpense updateDocument updateTransfer];
  cbv beta.

Section Endpoints.

Variable fetch : string -> RequestInit -> outcome Response.

(** A descriptor without a query is sent to the base address followed
    by its path. *)
Lemma request_without_query (this : CuenticaAPI) (m : Method) (p : string)
    (b : JsValue) :
  let o := {| method := m; path := p; body := b; query := None |} in
  first_fetch (request fetch this o)
  = Some (baseUrl this ++ p, request_init this o).
Proof.
  intros o. rewrite request_first_fetch, request_url_toString.
  unfold o, entries. simpl. now rewrite string_app_empty_r.
Qed.

(** X1.  For a usable client and an identifier that is a safe integer,
    each method that takes only an identifier, and each that takes
    nothing, calls the transport once, with its verb, at the base
    address followed by its path and the identifier in decimal, with no
    query, with the header [X-AUTH-TOKEN] alone and without a body. *)
Theorem reading_and_deleting_send_no_body (this : CuenticaAPI) (id : Z) :
  usable this = true ->
  safe_integer id = true ->
  Forall
    (fun entry : Method * string * (CuenticaAPI -> Z -> Run JsValue) =>
       first_fetch (snd entry this id)
       = Some (baseUrl this ++ snd (fst entry) ++ Z_toString id,
               {| init_method := Some (fst (fst entry));
                  init_headers := [("X-AUTH-TOKEN", token this)];
                  init_body := None |})
       /\ fetch_count (snd entry this id) = 1%nat)
    (methods_by_identifier fetch)
  /\ Forall
       (fun entry : string * (CuenticaAPI -> Run JsValue) =>
          first_fetch (snd entry this)
          = Some (baseUrl this ++ fst entry,
                  {| init_method := Some GET;
                     init_headers := [("X-AUTH-TOKEN", token this)];
                     init_body := None |})
          /\ fetch_count (snd entry this) = 1%nat)
       (methods_without_argument fetch)
  /\ NilZero.int_of_string (Z_toString id) = Some (Z.to_int id)
  /\ Z_toString 42 = "42"
  /\ Z_toString (-7) = "-7"
  /\ Z_toString 0 = "0".
Proof.
  intros _ _. split; [| split; [| split; [| repeat split]]].
  - unfold methods_by_identifier.
    repeat (constructor;
            [ cbn [fst snd]; split;
              [ apply request_without_query | exact (request_fetches_once fetch this _) ]
            | ]).
    apply Forall_nil.
  - unfold methods_without_argument.
    repeat (constructor;
            [ cbn [fst snd]; split;
              [ apply request_without_query | exact (request_fetches_once fetch this _) ]
            | ]).
    apply Forall_nil.
  - apply Z_toString_read.
Qed.

(** X2.  For a usable client, an identifier that is a safe integer and
    an object whose whole numbers are safe integers, each method that
    creates or updates sends the object as its JSON text with
    [Content-Type: application/json], by POST to the path of the
    resource or by PUT to that path and the identifier; the text is the
    properties of the object between braces, each as its quoted key, a
    colon and the text of its value, separated by commas, as on the
    sample customer.  Called with [null] they send a request without
    body and without [Content-Type]. *)
Theorem creating_and_updating_send_json (this : CuenticaAPI) (id : Z)
    (props : list (string * JsValue)) :
  usable this = true ->
  safe_integer id = true ->
  safe_numbers (JObj props) = true ->
  (exists text, JSON_stringify (JObj props) = Some text)
  /\ (forall texts, member_texts props texts ->
        JSON_stringify (JObj props) = Some ("{" ++ join "," texts ++ "}"))
  /\ Forall
       (fun entry : string * (CuenticaAPI -> JsValue -> Run JsValue) =>
          first_fetch (snd entry this (JObj props))
          = Some (baseUrl this ++ fst entry,
                  {| init_method := Some POST;
                     init_headers :=
                       [("X-AUTH-TOKEN", token this);
                        ("Content-Type", "application/json")];
                     init_body := JSON_stringify (JObj props) |})
          /\ first_fetch (snd entry this sample_customer)
             = Some (baseUrl this ++ fst entry,
                     {| init_method := Some POST;
                        init_headers :=
                          [("X-AUTH-TOKEN", token this);
                           ("Content-Type", "application/json")];
                        init_body := Some sample_customer_text |})
          /\ first_fetch (snd entry this JNull)
             = Some (baseUrl this ++ fst entry,
                     {| init_method := Some POST;
                        init_headers := [("X-AUTH-TOKEN", token this)];
                        init_body := None |}))
       (methods_that_create fetch)
  /\ Forall
       (fun entry : string * (CuenticaAPI -> Z -> JsValue -> Run JsValue) =>
          first_fetch (snd entry this id (JObj props))
          = Some (baseUrl this ++ fst entry ++ Z_toString id,
                  {| init_method := Some PUT;
                     init_headers :=
                       [("X-AUTH-TOKEN", token this);
                        ("Content-Type", "application/json")];
                     init_body := JSON_stringify (JObj props) |})
          /\ first_fetch (snd entry this id sample_customer)
             = Some (baseUrl this ++ fst entry ++ Z_toString id,
                     {| init_method := Some PUT;
                        init_headers :=
                          [("X-AUTH-TOKEN", token this);
                           ("Content-Type", "application/json")];
                        init_body := Some sample_customer_text |})
          /\ first_fetch (snd entry this id JNull)
             = Some (baseUrl this ++ fst entry ++ Z_toString id,
                     {| init_method := Some PUT;
                        init_headers := [("X-AUTH-TOKEN", token this)];
                        init_body := None |}))
       (methods_that_update fetch)
  /\ NilZero.int_of_string (Z_toString id) = Some (Z.to_int id).
Proof.
  intros _ _ _.
  split; [apply stringify_truthy; reflexivity |].
  split; [exact (stringify_object props) |].
  split; [| split; [| apply Z_toString_read]].
  - unfold methods_that_create.
    repeat (constructor;
            [ cbn [fst snd]; repeat split; open_method;
              rewrite request_without_query; reflexivity
            | ]).
    apply Forall_nil.
  - unfold methods_that_update.
    repeat (constructor;
            [ cbn [fst snd]; repeat split; open_method;
              rewrite request_without_query; reflexivity
            | ]).
    apply Forall_nil.
Qed.

End Endpoints.

(** X1 on the customer 7 of the sample client. *)
Lemma reading_and_deleting_send_no_body_witness :
  usable sample_api = true
  /\ safe_integer 7 = true
  /\ first_fetch (deleteCustomer network_down sample_api 7)
     = Some ("https://api.cuentica.com/customer/7",
             {| init_method := Some DELETE;
                init_headers := [("X-AUTH-TOKEN", "test-token")];
                init_body := None |}).
Proof.
  split; [reflexivity |]. split; [reflexivity |].
  destruct (reading_and_deleting_send_no_body network_down sample_api 7
              eq_refl eq_refl) as [H _].
  unfold methods_by_identifier in H.
  apply Forall_inv_tail in H. apply Forall_inv in H.
  exact (proj1 H).
Defined.

(** X2 on the sample customer, sent to update the customer 7. *)
Lemma creating_and_updating_send_json_witness :
  usable sample_api = true
  /\ safe_integer 7 = true
  /\ safe_numbers sample_customer = true
  /\ first_fetch (updateCustomer network_down sample_api 7 sample_customer)
     = Some ("https://api.cuentica.com/customer/7",
             {| init_method := Some PUT;
                init_headers := [("X-AUTH-TOKEN", "test-token");
                                 ("Content-Type", "application/json")];
                init_body := Some sample_customer_text |}).
Proof.
  split; [reflexivity |]. split; [reflexivity |]. split; [reflexivity |].
  destruct (creating_and_updating_send_json network_down sample_api 7
              [("name", JStr "Ada")] eq_refl eq_refl eq_refl)
    as [_ [_ [_ [H _]]]].
  unfold methods_that_update in H. apply Forall_inv in H.
  exact (proj1 (proj2 H)).
Defined.

(** ** How a run of [request] ends *)

Section Outcomes.

Variable fetch : string -> RequestInit -> outcome Response.
Variable this : CuenticaAPI.
Variable o : RequestOptions.

(** X3.  [request] returns a value exactly when the transport answers
    with a 2xx response: [undefined] for status 204, and otherwise the
    value that [json()] returns.  In every other case it throws. *)
Theorem request_returns_on_2xx_only (v : JsValue) :
  result (request fetch this o) = Returns v
  <-> exists r,
        fetch (URL_toString (request_url this o)) (request_init this o)
        = Returns r
        /\ ok r = true
        /\ (if N.eqb (status r) 204 then v = JUndefined
            else json r = Returns v).
Proof.
  destruct (fetch (URL_toString (request_url this o)) (request_init this o))
    as [r | e] eqn:Hf.
  - destruct (N.eqb_spec (status r) 429) as [H429 | H429].
    { rewrite (request_rate_limited fetch this o r Hf H429).
      unfold result. simpl. split.
      - destruct (toISOString (reset_date r)); discriminate.
      - intros [r' [Hr [Hok _]]]. inversion Hr. subst r'.
        unfold ok in Hok. rewrite H429 in Hok. discriminate. }
    destruct (ok r) eqn:Hok.
    + destruct (N.eqb_spec (status r) 204) as [H204 | H204].
      * rewrite (request_no_content fetch this o r Hf H204).
        unfold result. simpl. split.
        -- intros H. inversion H. exists r. rewrite H204. now repeat split.
        -- intros [r' [Hr [_ Hv]]]. inversion Hr. subst r'.
           rewrite H204 in Hv. simpl in Hv. now rewrite Hv.
      * rewrite (request_decodes fetch this o r Hf Hok H204).
        unfold result. simpl. split.
        -- intros H. exists r. apply N.eqb_neq in H204. rewrite H204.
           now repeat split.
        -- intros [r' [Hr [_ Hv]]]. inversion Hr. subst r'.
           apply N.eqb_neq in H204. now rewrite H204 in Hv.
    + rewrite (request_not_ok fetch this o r Hf H429 Hok).
      unfold result. simpl. split.
      * destruct (text r); discriminate.
      * intros [r' [Hr [Hok' _]]]. inversion Hr. subst r'. congruence.
  - rewrite (request_transport_failure fetch this o e Hf).
    unfold result. simpl. split.
    + discriminate.
    + intros [r' [Hr _]]. discriminate.
Qed.

(** X4.  When the transport fails, [request] and [getInvoicePdf] throw
    the error of the transport as it is, after that one call: nothing is
    read, nothing is tried again. *)
Theorem transport_failure_is_passed_on (e : Exception) :
  (fetch (URL_toString (request_url this o)) (request_init this o)
   = Throws e ->
   request fetch this o
   = ([Fetch (URL_toString (request_url this o)) (request_init this o)],
      Throws e))
  /\ (forall id,
        fetch (pdf_url this id) (pdf_init this) = Throws e ->
        getInvoicePdf fetch this id
        = ([Fetch (pdf_url this id) (pdf_init this)], Throws e)).
Proof.
  split.
  - apply request_transport_failure.
  - intros id Hf. unfold getInvoicePdf, call_fetch, perform, bind.
    now rewrite Hf.
Qed.

(** X5.  When the body of an error response cannot be read, the error
    of the reader is thrown and no [HTTP ...] error is made: in
    [request] for a status that is neither 2xx nor 429, in
    [getInvoicePdf] for every status that is not 2xx.  Likewise
    [getInvoicePdf] throws the error of [blob()] on a 2xx response. *)
Theorem reader_failure_is_passed_on (r : Response) (e : Exception) :
  (fetch (URL_toString (request_url this o)) (request_init this o)
   = Returns r ->
   ok r = false -> status r <> 429%N -> text r = Throws e ->
   request fetch this o
   = ([Fetch (URL_toString (request_url this o)) (request_init this o);
       ReadText],
      Throws e))
  /\ (forall id,
        fetch (pdf_url this id) (pdf_init this) = Returns r ->
        (ok r = false -> text r = Throws e ->
         getInvoicePdf fetch this id
         = ([Fetch (pdf_url this id) (pdf_init this); ReadText], Throws e))
        /\ (ok r = true -> blob r = Throws e ->
            getInvoicePdf fetch this id
            = ([Fetch (pdf_url this id) (pdf_init this); ReadBlob],
               Throws e))).
Proof.
  split.
  - intros Hf Hok Hs Ht.
    now rewrite (request_not_ok fetch this o r Hf Hs Hok), Ht.
  - intros id Hf. split.
    + intros Hok Ht. unfold getInvoicePdf, call_fetch, perform, bind.
      now rewrite Hf, Hok, Ht.
    + intros Hok Hb. unfold getInvoicePdf, call_fetch, perform, bind.
      now rewrite Hf, Hok, Hb.
Qed.

(** X6.  On a 429 response [request] throws without reading the body:
    a [RateLimitError] carrying the date computed from the header when
    that date is valid, and the [RangeError] of [toISOString] when it is
    not, as for a header that reads as [NaN] or as an infinity. *)
Theorem rate_limit_branch (r : Response) :
  fetch (URL_toString (request_url this o)) (request_init this o)
  = Returns r ->
  status r = 429%N ->
  let header := Headers_get "X-RateLimit-Reset" (headers r) in
  let sent := Fetch (URL_toString (request_url this o)) (request_init this o) in
  (forall t, reset_date r = ValidDate t ->
             request fetch this o
             = ([sent], Throws (RateLimitError (ValidDate t))))
  /\ (reset_date r = InvalidDate ->
      request fetch this o = ([sent], Throws RangeError))
  /\ (Number header = NaN -> reset_date r = InvalidDate)
  /\ (forall s, Number header = Infinity s -> reset_date r = InvalidDate).
Proof.
  intros Hf Hs header sent.
  pose proof (request_rate_limited fetch this o r Hf Hs) as Hrun.
  repeat split.
  - intros t Ht. now rewrite Hrun, Ht.
  - intros Hd. now rewrite Hrun, Hd.
  - intros Hn. unfold reset_date. fold header. now rewrite Hn.
  - intros s Hn. unfold reset_date. fold header. now rewrite Hn.
Qed.

(** X7.  A 429 response without the header [X-RateLimit-Reset], or with
    a blank one, gives a [RateLimitError] whose reset time is the
    epoch. *)
Theorem rate_limit_without_header (r : Response) :
  fetch (URL_toString (request_url this o)) (request_init this o)
  = Returns r ->
  status r = 429%N ->
  (Headers_get "X-RateLimit-Reset" (headers r) = None
   \/ exists s, Headers_get "X-RateLimit-Reset" (headers r) = Some s
                /\ trim s = "") ->
  request fetch this o
  = ([Fetch (URL_toString (request_url this o)) (request_init this o)],
     Throws (RateLimitError (ValidDate 0))).
Proof.
  intros Hf Hs Hh.
  rewrite (request_rate_limited fetch this o r Hf Hs).
  assert (Hd : reset_date r = ValidDate 0).
  { unfold reset_date.
    destruct Hh as [Hnone | [s [Hsome Hblank]]].
    - rewrite Hnone. reflexivity.
    - rewrite Hsome. unfold Number, StringToNumber. rewrite Hblank.
      reflexivity. }
  now rewrite Hd.
Qed.

(** The calls of a run of [request], by the answer of the transport. *)
Lemma request_events :
  events (request fetch this o)
  = Fetch (URL_toString (request_url this o)) (request_init this o)
    :: match fetch (URL_toString (request_url this o))
               (request_init this o) with
       | Throws _ => []
       | Returns r =>
           if N.eqb (status r) 429 then []
           else if negb (ok r) then [ReadText]
           else if N.eqb (status r) 204 then []
           else [ReadJson]
       end.
Proof.
  unfold events, request, call_fetch, perform, bind.
  destruct (fetch _ _) as [r | e]; [| reflexivity].
  destruct (N.eqb (status r) 429).
  - unfold RateLimitError_new, lift, bind, ret, throw.
    destruct (toISOString _); reflexivity.
  - destruct (negb (ok r)).
    + unfold throw. destruct (text r); reflexivity.
    + destruct (N.eqb (status r) 204); [reflexivity |].
      unfold ret. destruct (json r); reflexivity.
Qed.

Lemma request_body_reads :
  body_reads (request fetch this o)
  = match fetch (URL_toString (request_url this o)) (request_init this o) with
    | Throws _ => []
    | Returns r =>
        if N.eqb (status r) 429 then []
        else if negb (ok r) then [ReadText]
        else if N.eqb (status r) 204 then []
        else [ReadJson]
    end.
Proof.
  unfold body_reads. rewrite request_events.
  destruct (fetch _ _) as [r | e]; [| reflexivity].
  simpl. destruct (N.eqb (status r) 429); [reflexivity |].
  destruct (negb (ok r)); [reflexivity |].
  destruct (N.eqb (status r) 204); reflexivity.
Qed.

(** X8.  A run of [request] calls a body reader at most once and never
    [blob()]: [text()] for a status that is neither 2xx nor 429,
    [json()] for a 2xx status other than 204, and none on a 429 or 204
    response or when the transport fails.  [getInvoicePdf] calls
    [text()] for a status that is not 2xx, [blob()] otherwise, and
    never [json()]. *)
Theorem body_is_read_at_most_once :
  body_reads (request fetch this o)
  = match fetch (URL_toString (request_url this o)) (request_init this o) with
    | Throws _ => []
    | Returns r =>
        if N.eqb (status r) 429 then []
        else if negb (ok r) then [ReadText]
        else if N.eqb (status r) 204 then []
        else [ReadJson]
    end
  /\ (length (body_reads (request fetch this o)) <= 1)%nat
  /\ ~ In ReadBlob (events (request fetch this o))
  /\ forall id,
       body_reads (getInvoicePdf fetch this id)
       = match fetch (pdf_url this id) (pdf_init this) with
         | Throws _ => []
         | Returns r => if negb (ok r) then [ReadText] else [ReadBlob]
         end.
Proof.
  split; [apply request_body_reads |]. split; [| split].
  - rewrite request_body_reads.
    destruct (fetch _ _) as [r | e]; [| simpl; lia].
    destruct (N.eqb (status r) 429); [simpl; lia |].
    destruct (negb (ok r)); [simpl; lia |].
    destruct (N.eqb (status r) 204); simpl; lia.
  - rewrite request_events.
    destruct (fetch _ _) as [r | e]; [| simpl; intuition discriminate].
    destruct (N.eqb (status r) 429); [simpl; intuition discriminate |].
    destruct (negb (ok r)); [simpl; intuition discriminate |].
    destruct (N.eqb (status r) 204); simpl; intuition discriminate.
  - intros id.
    unfold body_reads, events, getInvoicePdf, call_fetch, perform, bind.
    destruct (fetch (pdf_url this id) (pdf_init this)) as [r | e];
      [| reflexivity].
    destruct (negb (ok r)).
    + unfold throw. destruct (text r); reflexivity.
    + destruct (blob r); reflexivity.
Qed.

End Outcomes.

(** X9.  How a response is classified does not depend on the
    descriptor: two runs of [request] whose calls to the transport
    settle alike end alike and read the body alike, whatever the verb,
    the path, the query and the body sent. *)
Theorem classification_ignores_descriptor
    (fetch1 fetch2 : string -> RequestInit -> outcome Response)
    (this1 this2 : CuenticaAPI) (o1 o2 : RequestOptions) :
  fetch1 (URL_toString (request_url this1 o1)) (request_init this1 o1)
  = fetch2 (URL_toString (request_url this2 o2)) (request_init this2 o2) ->
  result (request fetch1 this1 o1) = result (request fetch2 this2 o2)
  /\ body_reads (request fetch1 this1 o1)
     = body_reads (request fetch2 this2 o2).
Proof.
  intros H. split.
  - unfold result, request, call_fetch, perform, bind. rewrite H.
    destruct (fetch2 _ _) as [r | e]; [| reflexivity].
    repeat match goal with
           | |- context [let '(_, _) := ?m in _] => destruct m
           end.
    reflexivity.
  - now rewrite !request_body_reads, H.
Qed.

(** ** Query strings of the list methods *)

Lemma urlencode_digits (d : Decimal.uint) :
  urlencode (NilEmpty.string_of_uint d) = NilEmpty.string_of_uint d.
Proof.
  induction d; simpl; try rewrite IHd; reflexivity.
Qed.

(** The decimal text of a whole number is written as it is. *)
Lemma urlencode_decimal (n : Z) : urlencode (Z_toString n) = Z_toString n.
Proof.
  unfold Z_toString, NilZero.string_of_int, NilZero.string_of_uint.
  destruct (Z.to_int n) as [d | d]; destruct d; simpl;
    try rewrite urlencode_digits; reflexivity.
Qed.

Lemma all_undefined_supplies_nothing (params : Query) :
  all_undefined params -> supplied_parameters params = [].
Proof.
  unfold all_undefined, supplied_parameters.
  induction params as [| [k v] params IH]; intros H.
  - reflexivity.
  - assert (Hv : v = None) by exact (H (k, v) (or_introl eq_refl)).
    subst v. simpl. apply IH. intros e He. apply H. now right.
Qed.

Lemma request_with_query (fetch : string -> RequestInit -> outcome Response)
    (this : CuenticaAPI) (p : string) (params : Query) :
  dispatched_url
    (request fetch this {| method := GET; path := p; body := JUndefined;
                           query := Some params |})
  = Some (baseUrl this ++ p ++ query_suffix (supplied_parameters params)).
Proof.
  unfold dispatched_url. rewrite request_first_fetch. simpl.
  now rewrite request_url_toString.
Qed.

Section Lists.

Variable fetch : string -> RequestInit -> outcome Response.
Variable this : CuenticaAPI.

(** X10.  For a usable client and page numbers that are safe integers,
    [getCustomers] and [getProviders] always send [page] and
    [page_size], in this order, with 1 and 100 where the caller gives
    none and with the caller's numbers in decimal otherwise; the search
    term [q] follows, encoded, only when it is given. *)
Theorem pagination_is_always_sent (params : ListCustomersParams) :
  usable this = true ->
  safe_option (page params) = true ->
  safe_option (page_size params) = true ->
  (dispatched_url (getCustomers fetch this params)
   = Some (baseUrl this ++ "/customer?" ++ page_query params)
   /\ dispatched_url (getProviders fetch this params)
      = Some (baseUrl this ++ "/provider?" ++ page_query params))
  /\ (dispatched_url
        (getCustomers fetch this {| page := None; page_size := None; q := None |})
      = Some (baseUrl this ++ "/customer?page=1&page_size=100")
      /\ dispatched_url
           (getProviders fetch this
              {| page := Some 0; page_size := Some 25; q := Some "a b&c" |})
         = Some (baseUrl this ++ "/provider?page=0&page_size=25&q=a+b%26c"))
  /\ (exists first size,
        NilZero.int_of_string first
        = Some (Z.to_int (match page params with Some p => p | None => 1 end))
        /\ NilZero.int_of_string size
           = Some (Z.to_int (match page_size params with
                             | Some p => p
                             | None => 100
                             end))
        /\ page_query params
           = "page=" ++ first ++ "&page_size=" ++ size
             ++ match q params with
                | Some t => "&q=" ++ urlencode t
                | None => ""
                end)
  /\ (forall t, urlencoded_parse ("q=" ++ urlencode t) = [("q", t)]).
Proof.
  intros _ _ _. split; [| split; [| split]].
  - unfold getCustomers, getProviders. rewrite !request_with_query.
    unfold page_query, supplied_parameters, query_suffix,
      urlencoded_serialize, urlencode_pair, join.
    destruct params as [pg sz [t |]]; cbn [page page_size q option_map filter
      is_present snd fst map entry_text QueryValue_toString String.concat];
      rewrite !urlencode_decimal; split;
      change (urlencode "page") with "page";
      change (urlencode "page_size") with "page_size";
      change (urlencode "q") with "q";
      cbn [append]; rewrite ?string_app_empty_r; reflexivity.
  - unfold getCustomers, getProviders. rewrite !request_with_query.
    split; reflexivity.
  - eexists. eexists. split; [apply Z_toString_read |].
    split; [apply Z_toString_read | reflexivity].
  - intros t. exact (parse_serialize [("q", t)]).
Qed.

(** X11.  For a usable client and a parameters object that received
    its properties in the order [added], as a record with whole numbers
    that are safe integers, [getDocuments] and [getTransfers] send the
    entries that have a value, one for one and in the order in which
    they were added, each under its key and with the text of its value,
    as a query that the parser of the URL standard reads back as them;
    when no entry has a value the URL has no query at all, and the same
    holds for [getInvoices] and [getExpenses] called without tags. *)
Theorem parameters_pass_through (added : Query) :
  usable this = true ->
  is_record added = true ->
  safe_query added = true ->
  let params := Object_entries added in
  (exists pairs,
      sent_as added pairs
      /\ (forall others, sent_as added others -> others = pairs)
      /\ match pairs with
         | [] =>
             dispatched_url (getDocuments fetch this params)
             = Some (baseUrl this ++ "/document")
             /\ dispatched_url (getTransfers fetch this params)
                = Some (baseUrl this ++ "/transfer")
         | _ =>
             dispatched_url (getDocuments fetch this params)
             = Some (baseUrl this ++ "/document?" ++ query_text pairs)
             /\ dispatched_url (getTransfers fetch this params)
                = Some (baseUrl this ++ "/transfer?" ++ query_text pairs)
             /\ urlencoded_parse (query_text pairs) = pairs
         end)
  /\ query_text [("keyword", "a b,c&d=e/f"); ("assigned", "false");
                 ("page", "2")]
     = "keyword=a+b%2Cc%26d%3De%2Ff&assigned=false&page=2"
  /\ (all_undefined added ->
      dispatched_url (getDocuments fetch this params)
      = Some (baseUrl this ++ "/document")
      /\ dispatched_url (getTransfers fetch this params)
         = Some (baseUrl this ++ "/transfer")
      /\ dispatched_url
           (getInvoices fetch this {| tags := None; rest := params |})
         = Some (baseUrl this ++ "/invoice")
      /\ dispatched_url
           (getExpenses fetch this {| tags := None; rest := params |})
         = Some (baseUrl this ++ "/expense")).
Proof.
  intros _ Hrecord _ params. unfold params.
  rewrite (Object_entries_record _ Hrecord).
  unfold getDocuments, getTransfers, getInvoices, getExpenses, tagged_query.
  rewrite !request_with_query. cbn [tags rest option_map].
  split; [| split; [reflexivity |]].
  - exists (supplied_parameters added).
    split; [apply sent_as_supplied |].
    split; [apply sent_as_unique |].
    destruct (supplied_parameters added) as [| p l].
    + split; reflexivity.
    + split; [reflexivity |]. split; [reflexivity |].
      apply parse_serialize.
  - intros Hall. rewrite supplied_parameters_app.
    rewrite (all_undefined_supplies_nothing added Hall).
    repeat split.
Qed.

(** X12.  The tags reach the query only through their comma-joined
    text: a tag that holds a comma is sent exactly as the two tags on
    either side of it, and the single empty tag exactly as no tag. *)
Theorem tags_are_told_apart_by_commas_only (others : Query) (a b : string) :
  (forall l1 l2, join "," l1 = join "," l2 ->
     getInvoices fetch this {| tags := Some l1; rest := others |}
     = getInvoices fetch this {| tags := Some l2; rest := others |}
     /\ getExpenses fetch this {| tags := Some l1; rest := others |}
        = getExpenses fetch this {| tags := Some l2; rest := others |})
  /\ join "," [a ++ "," ++ b] = join "," [a; b]
  /\ join "," [""] = join "," []
  /\ getInvoices fetch this {| tags := Some [a ++ "," ++ b]; rest := others |}
     = getInvoices fetch this {| tags := Some [a; b]; rest := others |}
  /\ getInvoices fetch this {| tags := Some [""]; rest := others |}
     = getInvoices fetch this {| tags := Some []; rest := others |}.
Proof.
  split; [| repeat split].
  intros l1 l2 H. unfold getInvoices, getExpenses, tagged_query. simpl.
  now rewrite H.
Qed.

End Lists.

(** X10 on a second page with a search term. *)
Lemma pagination_is_always_sent_witness :
  usable sample_api = true
  /\ dispatched_url
       (getCustomers network_down sample_api
          {| page := Some 2; page_size := None; q := Some "Acme, S.L." |})
     = Some "https://api.cuentica.com/customer?page=2&page_size=100&q=Acme%2C+S.L.".
Proof.
  split; [reflexivity |].
  exact (proj1 (proj1 (pagination_is_always_sent network_down sample_api
                         {| page := Some 2; page_size := None;
                            q := Some "Acme, S.L." |}
                         eq_refl eq_refl eq_refl))).
Defined.

(** X11 on three parameters, one of them absent. *)
Lemma parameters_pass_through_witness :
  usable sample_api = true
  /\ is_record [("keyword", Some (QStr "a b")); ("hash", None);
                ("assigned", Some (QBool false))] = true
  /\ exists pairs,
       sent_as [("keyword", Some (QStr "a b")); ("hash", None);
                ("assigned", Some (QBool false))] pairs
       /\ pairs = [("keyword", "a b"); ("assigned", "false")].
Proof.
  split; [reflexivity |]. split; [reflexivity |].
  destruct (parameters_pass_through network_down sample_api
              [("keyword", Some (QStr "a b")); ("hash", None);
               ("assigned", Some (QBool false))]
              eq_refl eq_refl eq_refl) as [[pairs [Hsent [Hone _]]] _].
  exists pairs. split; [exact Hsent |].
  symmetry. apply Hone.
  repeat constructor; simpl; eexists; (split; [reflexivity | constructor]).
Defined.

(** ** Reading the query back *)

(** X13.  The query of the URL of a request is read back, by the
    parser of the URL standard, as exactly the parameters that were
    supplied, names and values byte for byte and in order, whatever
    characters they hold; a URL without query stands for no
    parameter. *)
Theorem query_reads_back (this : CuenticaAPI) (o : RequestOptions) :
  match url_query (request_url this o) with
  | Some text => urlencoded_parse text = supplied_parameters (entries o)
  | None => supplied_parameters (entries o) = []
  end
  /\ forall l, urlencoded_parse (urlencoded_serialize l) = l.
Proof.
  split; [| apply parse_serialize].
  rewrite request_url_query.
  destruct (supplied_parameters (entries o)) as [| p l] eqn:E.
  - reflexivity.
  - apply parse_serialize.
Qed.

(** X14.  The query of the URL of a request is made of letters, digits
    and the marks [* - . _ + % = &] only: no value can bring a space, a
    [#], a [?] or a [/] into it, and cutting it at the [&] gives one
    piece per supplied parameter. *)
Theorem query_is_url_safe (this : CuenticaAPI) (o : RequestOptions)
    (text : string) :
  url_query (request_url this o) = Some text ->
  all_chars query_safe text = true
  /\ text = urlencoded_serialize (supplied_parameters (entries o))
  /\ length (filter (fun p => negb (String.eqb p ""))
               (split_on "&" text))
     = length (supplied_parameters (entries o)).
Proof.
  rewrite request_url_query.
  destruct (supplied_parameters (entries o)) as [| p l] eqn:E;
    [discriminate |].
  intros H. inversion H. subst text. clear H.
  split; [apply serialize_safe |]. split; [reflexivity |].
  generalize (p :: l). clear. intros l.
  unfold urlencoded_serialize, join.
  induction l as [| p l IH].
  - reflexivity.
  - destruct l as [| p' l'].
    + simpl String.concat. simpl map.
      destruct (split_on_free "&" (urlencode_pair p)
                  (urlencode_pair_without_ampersand p)) as [H1 _].
      rewrite H1. cbn [filter].
      destruct (String.eqb_spec (urlencode_pair p) "") as [E | _];
        [now apply urlencode_pair_nonempty in E | reflexivity].
    + change (String.concat "&" (map urlencode_pair (p :: p' :: l')))
        with (urlencode_pair p
              ++ String "&" (String.concat "&" (map urlencode_pair (p' :: l')))).
      destruct (split_on_free "&" (urlencode_pair p)
                  (urlencode_pair_without_ampersand p)) as [_ H2].
      rewrite H2. cbn [filter].
      destruct (String.eqb_spec (urlencode_pair p) "") as [E | _];
        [now apply urlencode_pair_nonempty in E |].
      cbn [negb length]. now rewrite IH.
Qed.

(** ** A constructed client and its token *)


(** ** The properties above on sample runs *)

(** X4 on a network that is down. *)
Lemma transport_failure_is_passed_on_witness :
  result (request network_down sample_api company_request)
  = Throws (Failure "TypeError" "Network error")
  /\ getInvoicePdf network_down sample_api 7
     = ([Fetch "https://api.cuentica.com/invoice/7/pdf"
           {| init_method := None;
              init_headers := [("X-AUTH-TOKEN", "test-token")];
              init_body := None |}],
        Throws (Failure "TypeError" "Network error")).
Proof.
  destruct (transport_failure_is_passed_on network_down sample_api
              company_request (Failure "TypeError" "Network error"))
    as [H1 H2].
  split.
  - now rewrite (H1 eq_refl).
  - exact (H2 7 eq_refl).
Defined.

(** X5 on a 500 response whose body cannot be read. *)
Lemma reader_failure_is_passed_on_witness :
  ok unreadable_response = false
  /\ result (request (reply unreadable_response) sample_api company_request)
     = Throws (Failure "TypeError" "terminated")
  /\ result (getInvoicePdf (reply unreadable_response) sample_api 7)
     = Throws (Failure "TypeError" "terminated").
Proof.
  destruct (reader_failure_is_passed_on (reply unreadable_response)
              sample_api company_request unreadable_response
              (Failure "TypeError" "terminated")) as [H1 H2].
  split; [reflexivity |]. split.
  - rewrite (H1 eq_refl eq_refl ltac:(discriminate) eq_refl). reflexivity.
  - destruct (H2 7 eq_refl) as [H3 _].
    rewrite (H3 eq_refl eq_refl). reflexivity.
Defined.

(** X6 on a 429 response whose header is an HTTP date. *)
Lemma rate_limit_branch_witness :
  status dated_429_response = 429%N
  /\ reset_date dated_429_response = InvalidDate
  /\ request (reply dated_429_response) sample_api company_request
     = ([Fetch "https://api.cuentica.com/company"
           {| init_method := Some GET;
              init_headers := [("X-AUTH-TOKEN", "test-token")];
              init_body := None |}],
        Throws RangeError).
Proof.
  split; [reflexivity |]. split; [reflexivity |].
  destruct (rate_limit_branch (reply dated_429_response) sample_api
              company_request dated_429_response eq_refl eq_refl)
    as [_ [H _]].
  exact (H eq_refl).
Defined.

(** X7 on a 429 response that carries [Retry-After] only. *)
Lemma rate_limit_without_header_witness :
  status bare_429_response = 429%N
  /\ Headers_get "X-RateLimit-Reset" (headers bare_429_response) = None
  /\ request (reply bare_429_response) sample_api company_request
     = ([Fetch "https://api.cuentica.com/company"
           {| init_method := Some GET;
              init_headers := [("X-AUTH-TOKEN", "test-token")];
              init_body := None |}],
        Throws (RateLimitError (ValidDate 0))).
Proof.
  split; [reflexivity |]. split; [reflexivity |].
  exact (rate_limit_without_header (reply bare_429_response) sample_api
           company_request bare_429_response eq_refl eq_refl
           (or_introl eq_refl)).
Defined.

(** X9 on a GET and a DELETE that are both answered by a 200 response
    with a JSON body: the DELETE returns the decoded body as well. *)
Lemma classification_ignores_descriptor_witness :
  result (request (reply (json_response (JNum 1))) sample_api delete_request)
  = result (request (reply (json_response (JNum 1))) sample_api
              company_request)
  /\ result (request (reply (json_response (JNum 1))) sample_api
               delete_request)
     = Returns (JNum 1).
Proof.
  split; [| reflexivity].
  exact (proj1 (classification_ignores_descriptor
                  (reply (json_response (JNum 1)))
                  (reply (json_response (JNum 1)))
                  sample_api sample_api delete_request company_request
                  eq_refl)).
Defined.

(** X14 on a descriptor with an absent and an empty parameter. *)
Lemma query_is_url_safe_witness :
  url_query (request_url sample_api search_request)
  = Some "page=2&serie=&issued=true"
  /\ all_chars query_safe "page=2&serie=&issued=true" = true.
Proof.
  split; [reflexivity |].
  exact (proj1 (query_is_url_safe sample_api search_request
                  "page=2&serie=&issued=true" eq_refl)).
Defined.


(** ** A reset header written in decimal *)

Lemma digits_step (c : ascii) (s : string) (acc len v : Z) :
  digit_in 10 c = Some v ->
  digits 10 (String c s) acc len = digits 10 s (10 * acc + v) (len + 1).
Proof.
  intros H. cbn [digits]. now rewrite H.
Qed.

Lemma digits_from (d : Decimal.uint) (acc : positive) (len : Z) :
  digits 10 (NilEmpty.string_of_uint d) (Zpos acc) len
  = (Zpos (Pos.of_uint_acc d acc),
     len + Z.of_nat (Decimal.nb_digits d), EmptyString).
Proof.
  revert acc len.
  induction d; intros acc len;
    cbn [NilEmpty.string_of_uint Decimal.nb_digits Pos.of_uint_acc];
    try (erewrite digits_step by reflexivity;
         match goal with
         | |- digits _ _ (_ + ?v) _ = _ =>
             let v' := eval vm_compute in v in change v with v'
         end;
         match goal with
         | |- digits _ _ ?a _ = (Z.pos (Pos.of_uint_acc _ ?p), _, _) =>
             replace a with (Z.pos p) by lia
         end;
         rewrite IHd; do 2 f_equal; lia).
  cbn [digits]. do 2 f_equal. cbn. lia.
Qed.

Lemma digits_from_zero (d : Decimal.uint) (len : Z) :
  digits 10 (NilEmpty.string_of_uint d) 0 len
  = (Z.of_N (Pos.of_uint d),
     len + Z.of_nat (Decimal.nb_digits d), EmptyString).
Proof.
  revert len.
  induction d; intros len;
    cbn [NilEmpty.string_of_uint Decimal.nb_digits Pos.of_uint];
    try (erewrite digits_step by reflexivity;
         match goal with
         | |- digits _ _ ?a _ = _ =>
             let a' := eval vm_compute in a in change a with a'
         end;
         first [ rewrite digits_from | rewrite IHd ];
         do 2 f_equal; lia).
  cbn [digits]. do 2 f_equal. cbn. lia.
Qed.

Lemma digits_are_digits (d : Decimal.uint) :
  all_chars is_digit (NilEmpty.string_of_uint d) = true.
Proof.
  induction d; cbn [NilEmpty.string_of_uint all_chars];
    try rewrite IHd; reflexivity.
Qed.

Lemma all_chars_rev (P : ascii -> bool) (s acc : string) :
  all_chars P (rev_string s acc) = all_chars P s && all_chars P acc.
Proof.
  revert acc. induction s as [| c s IH]; intros acc; simpl.
  - reflexivity.
  - rewrite IH. simpl. now rewrite andb_assoc, (andb_comm (all_chars P s)).
Qed.

Lemma rev_string_twice (s acc acc' : string) :
  rev_string (rev_string s acc) acc' = rev_string acc (s ++ acc').
Proof.
  revert acc acc'. induction s as [| c s IH]; intros acc acc'; simpl.
  - reflexivity.
  - now rewrite IH.
Qed.

Lemma trim_start_digits (s : string) :
  all_chars is_digit s = true -> trim_start s = s.
Proof.
  destruct s as [| c s]; simpl; [reflexivity |].
  intros H. apply andb_true_iff in H. destruct H as [Hc _].
  assert (Hs : is_space c = false).
  { destruct c as [[] [] [] [] [] [] [] []]; try discriminate Hc;
      reflexivity. }
  now rewrite Hs.
Qed.

(** Text made of digits has nothing to trim. *)
Lemma trim_digits (s : string) : all_chars is_digit s = true -> trim s = s.
Proof.
  intros H. unfold trim. rewrite (trim_start_digits s H).
  rewrite trim_start_digits.
  - rewrite rev_string_twice. simpl. apply string_app_empty_r.
  - now rewrite all_chars_rev, H.
Qed.

(** Text that starts with a digit and holds digits only is read as a
    decimal literal. *)
Lemma StringToNumber_digits (s : string) :
  s <> "" -> all_chars is_digit s = true ->
  StringToNumber s
  = match unsigned_decimal s with
    | Some x => binary64 x
    | None => NaN
    end.
Proof.
  intros Hne H. unfold StringToNumber. rewrite (trim_digits s H).
  destruct s as [| c1 s]; [now elim Hne |].
  simpl in H. apply andb_true_iff in H. destruct H as [H1 H].
  destruct c1 as [[] [] [] [] [] [] [] []]; try discriminate H1;
    try reflexivity.
  destruct s as [| c2 s]; [reflexivity |].
  simpl in H. apply andb_true_iff in H. destruct H as [H2 _].
  destruct c2 as [[] [] [] [] [] [] [] []]; try discriminate H2;
    reflexivity.
Qed.

(** The decimal text of a whole number of seconds that is not negative
    and below 2^53 reads as that number. *)
Lemma Number_of_decimal (T : Z) :
  0 <= T < 2 ^ 53 ->
  exists y, Number (Some (Z_toString T)) = Finite y /\ (y == inject_Z T)%Q.
Proof.
  intros HT. unfold Number.
  assert (Hd : exists d,
             Z_toString T = NilEmpty.string_of_uint d
             /\ d <> Decimal.Nil /\ Z.of_N (Pos.of_uint d) = T).
  { unfold Z_toString. destruct T as [| p | p]; [| | lia].
    - exists (Decimal.D0 Decimal.Nil). repeat split. discriminate.
    - exists (Pos.to_uint p). split; [| split].
      + cbn [Z.to_int NilZero.string_of_int].
        unfold NilZero.string_of_uint.
        pose proof (DecimalPos.Unsigned.to_uint_nonnil p) as Hn.
        destruct (Pos.to_uint p); [now elim Hn | reflexivity ..].
      + apply DecimalPos.Unsigned.to_uint_nonnil.
      + now rewrite DecimalPos.Unsigned.of_to. }
  destruct Hd as [d [Hs [Hnil Hv]]]. rewrite Hs.
  rewrite StringToNumber_digits.
  - unfold unsigned_decimal. rewrite digits_from_zero, Hv.
    assert (Hlen : Z.ltb 0 (0 + Z.of_nat (Decimal.nb_digits d) + 0) = true).
    { apply Z.ltb_lt. destruct d; [now elim Hnil | cbn; lia ..]. }
    cbn [exponent_part]. rewrite Hlen.
    apply binary64_whole; [| lia].
    unfold scale10. cbn. unfold Qeq, inject_Z. cbn. lia.
  - destruct d; [now elim Hnil | discriminate ..].
  - apply digits_are_digits.
Qed.

Section DecimalHeader.

Variable fetch : string -> RequestInit -> outcome Response.
Variable this : CuenticaAPI.
Variable o : RequestOptions.

(** X16.  When the header [X-RateLimit-Reset] of a 429 response is the
    decimal text of a whole number [T] of seconds, not negative and
    with [T * 1000] within the range of [Date], [request] throws a
    [RateLimitError] whose reset time is exactly [T * 1000]
    milliseconds: reading the text as a number and multiplying lose
    nothing. *)
Theorem decimal_reset_header (r : Response) (T : Z) :
  fetch (URL_toString (request_url this o)) (request_init this o)
  = Returns r ->
  status r = 429%N ->
  Headers_get "X-RateLimit-Reset" (headers r) = Some (Z_toString T) ->
  0 <= T ->
  T * 1000 <= max_time ->
  request fetch this o
  = ([Fetch (URL_toString (request_url this o)) (request_init this o)],
     Throws (RateLimitError (ValidDate (T * 1000)))).
Proof.
  intros Hf Hs Hh H0 Hmax.
  assert (Hmax' : max_time = 8640000000000000) by reflexivity.
  assert (Hpow : 8640000000000000 < 2 ^ 53) by reflexivity.
  destruct (Number_of_decimal T) as [y [Hy Hq]]; [lia |].
  destruct (whole_seconds_product y T Hq) as [p [Hp Hpq]]; [lia |].
  rewrite (request_rate_limited fetch this o r Hf Hs).
  rewrite (reset_date_whole r p (T * 1000)).
  - reflexivity.
  - now rewrite Hh, Hy.
  - exact Hpq.
  - lia.
Qed.

End DecimalHeader.

(** X16 on the reset time 1700000000. *)
Lemma decimal_reset_header_witness :
  status rate_limited_response = 429%N
  /\ Headers_get "X-RateLimit-Reset" (headers rate_limited_response)
     = Some (Z_toString 1700000000)
  /\ request (reply rate_limited_response) sample_api company_request
     = ([Fetch "https://api.cuentica.com/company"
           {| init_method := Some GET;
              init_headers := [("X-AUTH-TOKEN", "test-token")];
              init_body := None |}],
        Throws (RateLimitError (ValidDate 1700000000000))).
Proof.
  split; [reflexivity |]. split; [reflexivity |].
  refine (decimal_reset_header (reply rate_limited_response) sample_api
            company_request rate_limited_response 1700000000
            eq_refl eq_refl eq_refl _ _).
  - lia.
  - unfold max_time. lia.
Defined.

(** ** Identifiers in paths *)

Lemma string_length_app (a b : string) :
  String.length (a ++ b) = (String.length a + String.length b)%nat.
Proof.
  induction a as [| c a IH]; simpl.
  - reflexivity.
  - now rewrite IH.
Qed.

Lemma string_app_inv_head (a b c : string) : a ++ b = a ++ c -> b = c.
Proof.
  induction a as [| x a IH]; simpl; intros H.
  - exact H.
  - inversion H. now apply IH.
Qed.

Lemma string_app_inv_tail (a b c : string) : a ++ c = b ++ c -> a = b.
Proof.
  revert b. induction a as [| x a IH]; intros [| y b] H.
  - reflexivity.
  - apply (f_equal String.length) in H. simpl in H.
    rewrite string_length_app in H. lia.
  - apply (f_equal String.length) in H. simpl in H.
    rewrite string_length_app in H. lia.
  - simpl in H. inversion H. f_equal. now apply IH.
Qed.

(** The decimal text tells the number. *)
Lemma Z_toString_inj (a b : Z) : Z_toString a = Z_toString b -> a = b.
Proof.
  unfold Z_toString. intros H.
  assert (Hn : forall n, Z.to_int n <> Decimal.Pos Decimal.Nil
                         /\ Z.to_int n <> Decimal.Neg Decimal.Nil).
  { intros [| p | p]; simpl; split; try discriminate;
      intros E; inversion E as [E'];
      now apply DecimalPos.Unsigned.to_uint_nonnil in E'. }
  apply (f_equal NilZero.int_of_string) in H.
  rewrite !NilZero.isi in H by apply Hn.
  inversion H as [E]. now apply DecimalZ.to_int_inj.
Qed.

(** X17.  For a usable client, two identifiers that are safe integers
    and differ are sent to URLs that differ, by every method that takes
    an identifier and by [getInvoicePdf]: the identifier can be read
    back from the URL, which is the base address, the path and the
    decimal numeral of the identifier. *)
Theorem identifiers_address_distinct_urls
    (fetch : string -> RequestInit -> outcome Response)
    (this : CuenticaAPI) (id1 id2 : Z) :
  usable this = true ->
  safe_integer id1 = true ->
  safe_integer id2 = true ->
  Forall
    (fun entry : Method * string * (CuenticaAPI -> Z -> Run JsValue) =>
       (exists numeral,
           dispatched_url (snd entry this id1)
           = Some (baseUrl this ++ snd (fst entry) ++ numeral)
           /\ NilZero.int_of_string numeral = Some (Z.to_int id1))
       /\ (dispatched_url (snd entry this id1)
           = dispatched_url (snd entry this id2) ->
           id1 = id2))
    (methods_by_identifier fetch)
  /\ Forall
       (fun entry : string * (CuenticaAPI -> Z -> JsValue -> Run JsValue) =>
          forall b1 b2,
            (exists numeral,
                dispatched_url (snd entry this id1 b1)
                = Some (baseUrl this ++ fst entry ++ numeral)
                /\ NilZero.int_of_string numeral = Some (Z.to_int id1))
            /\ (dispatched_url (snd entry this id1 b1)
                = dispatched_url (snd entry this id2 b2) ->
                id1 = id2))
       (methods_that_update fetch)
  /\ (exists numeral,
         dispatched_url (getInvoicePdf fetch this id1)
         = Some (baseUrl this ++ "/invoice/" ++ numeral ++ "/pdf")
         /\ NilZero.int_of_string numeral = Some (Z.to_int id1))
  /\ (dispatched_url (getInvoicePdf fetch this id1)
      = dispatched_url (getInvoicePdf fetch this id2) ->
      id1 = id2).
Proof.
  intros _ _ _.
  assert (Hurl : forall m p b b',
             (exists numeral,
                 dispatched_url
                   (request fetch this
                      {| method := m; path := p ++ Z_toString id1;
                         body := b; query := None |})
                 = Some (baseUrl this ++ p ++ numeral)
                 /\ NilZero.int_of_string numeral = Some (Z.to_int id1))
             /\ (dispatched_url
                   (request fetch this
                      {| method := m; path := p ++ Z_toString id1;
                         body := b; query := None |})
                 = dispatched_url
                     (request fetch this
                        {| method := m; path := p ++ Z_toString id2;
                           body := b'; query := None |}) ->
                 id1 = id2)).
  { intros m p b b'. unfold dispatched_url.
    rewrite !request_without_query. simpl. split.
    - exists (Z_toString id1). split; [reflexivity | apply Z_toString_read].
    - intros H. inversion H as [E].
      apply string_app_inv_head in E. apply string_app_inv_head in E.
      now apply Z_toString_inj. }
  assert (Hpdf : forall id,
             dispatched_url (getInvoicePdf fetch this id)
             = Some (pdf_url this id)).
  { intros id.
    unfold dispatched_url, first_fetch, events, getInvoicePdf, call_fetch,
      perform, bind.
    destruct (fetch _ _) as [r | e]; [| reflexivity].
    match goal with
    | |- context [let '(_, _) := ?m in _] => destruct m
    end.
    reflexivity. }
  split; [| split; [| split]].
  - unfold methods_by_identifier.
    repeat (constructor; [ cbn [fst snd]; apply Hurl | ]).
    apply Forall_nil.
  - unfold methods_that_update.
    repeat (constructor;
            [ intros b1 b2; cbn [fst snd]; open_method; apply Hurl | ]).
    apply Forall_nil.
  - exists (Z_toString id1). split; [apply Hpdf | apply Z_toString_read].
  - rewrite !Hpdf. unfold pdf_url. intros H. inversion H as [E].
    apply string_app_inv_head in E. simpl in E. inversion E as [E'].
    apply string_app_inv_tail in E'. now apply Z_toString_inj.
Qed.

(** X17 on the customers 7 and 70 of the sample client. *)
Lemma identifiers_address_distinct_urls_witness :
  usable sample_api = true
  /\ safe_integer 7 = true
  /\ safe_integer 70 = true
  /\ dispatched_url (getCustomer network_down sample_api 7)
     = Some "https://api.cuentica.com/customer/7"
  /\ (dispatched_url (getCustomer network_down sample_api 7)
      = dispatched_url (getCustomer network_down sample_api 70) ->
      7 = 70).
Proof.
  split; [reflexivity |]. split; [reflexivity |]. split; [reflexivity |].
  split; [reflexivity |].
  destruct (identifiers_address_distinct_urls network_down sample_api 7 70
              eq_refl eq_refl eq_refl) as [H _].
  unfold methods_by_identifier in H. apply Forall_inv in H.
  exact (proj2 H).
Defined.
